(** * debug_calls: caller location and argument classification

    A shallow embedding of [src/debug_calls/decorators.py].

    - Python dicts are insertion-ordered: they are association lists whose
      keys are unique, updated in place ([dict_set]).
    - The decorator builds mutable objects (a dict and two lists) that the
      wrapper closes over; they live in a heap of objects addressed by
      location, so that sharing and copying are visible.
    - Printing, invoking the decorated callable and raising are effects of a
      small state-and-error monad [M]. *)

From Stdlib Require Import String Ascii List ZArith Bool Lia DecimalString.
From stdpp Require Import base list strings.
Import ListNotations.

(** ** Python values *)

(** The values that flow through the wrapper. [PyEmpty] is the sentinel
    [inspect.Parameter.empty] that a parameter without default carries. *)
Inductive pyval : Type :=
  | PyEmpty
  | PyNone
  | PyInt (z : Z)
  | PyStr (s : string).

Definition pyval_eqb (a b : pyval) : bool :=
  match a, b with
  | PyEmpty, PyEmpty => true
  | PyNone, PyNone => true
  | PyInt x, PyInt y => Z.eqb x y
  | PyStr x, PyStr y => String.eqb x y
  | _, _ => false
  end.

(** ** Insertion-ordered dictionaries *)

Definition dict (A : Type) : Type := list (string * A).

Fixpoint dict_get {A} (k : string) (d : dict A) : option A :=
  match d with
  | [] => None
  | (k', v) :: d' => if String.eqb k k' then Some v else dict_get k d'
  end.

(** [d[k] = v]: an existing key keeps its place, a new key goes last. *)
Fixpoint dict_set {A} (k : string) (v : A) (d : dict A) : dict A :=
  match d with
  | [] => [(k, v)]
  | (k', v') :: d' =>
      if String.eqb k k' then (k', v) :: d' else (k', v') :: dict_set k v d'
  end.

(** [d.update(pairs)]: the pairs are assigned one after the other. *)
Definition dict_update {A} (d : dict A) (pairs : list (string * A)) : dict A :=
  fold_left (fun acc kv => dict_set (fst kv) (snd kv) acc) pairs d.

Definition dict_keys {A} (d : dict A) : list string := map fst d.

(** [name in names] on a list of strings. *)
Definition str_in (name : string) (names : list string) : bool :=
  existsb (String.eqb name) names.

(** [x in d.items()]. An items view holds (key, value) pairs: the test
    succeeds only for a pair whose key is in the dict with an equal value,
    and is false for any operand that is not a pair. *)
Inductive operand : Type :=
  | OpStr (s : string)
  | OpPair (k : string) (v : pyval).

Definition in_items (x : operand) (d : dict pyval) : bool :=
  match x with
  | OpStr _ => false
  | OpPair k v =>
      match dict_get k d with
      | Some v' => pyval_eqb v' v
      | None => false
      end
  end.

(** ** Caller locator *)

(** The fields of an [inspect.FrameInfo] that the locator reads. *)
Record frame : Type := Frame {
  filename : string;
  lineno : Z;
  function : string
}.

Definition frame_in (fr : frame) (frames_to_skip : list (string * string)) : bool :=
  existsb (fun e => String.eqb (filename fr) (fst e) && String.eqb (function fr) (snd e))
          frames_to_skip.

(** The [for i, ... in enumerate(call_stack)] loop, [i] being the index of
    the frame at the head of [call_stack]. *)
Fixpoint get_caller_info_loop (frames_to_skip : list (string * string))
    (i : nat) (call_stack : list frame) : string * Z * string * bool :=
  match call_stack with
  | [] => (EmptyString, 0%Z, EmptyString, true)
  | fr :: rest =>
      if frame_in fr frames_to_skip
      then get_caller_info_loop frames_to_skip (S i) rest
      else (filename fr, lineno fr, function fr, Nat.ltb 0 i)
  end.

(** [stack] is what [inspect.stack()] returns inside the locator: its own
    frame, the wrapper's frame, then the callers, innermost first. *)
Definition get_caller_info (frames_to_skip : list (string * string))
    (stack : list frame) : string * Z * string * bool :=
  let call_stack := skipn 2 stack in
  get_caller_info_loop frames_to_skip 0 call_stack.

(** The nearest frame of a chain that is not in the skip list. *)
Definition nearest_unskipped (frames_to_skip : list (string * string))
    (chain : list frame) : option frame :=
  List.find (fun fr => negb (frame_in fr frames_to_skip)) chain.

(** ** Callables and their signatures *)

Inductive param_kind : Type :=
  | POSITIONAL_ONLY
  | POSITIONAL_OR_KEYWORD
  | VAR_POSITIONAL
  | KEYWORD_ONLY
  | VAR_KEYWORD.

(** An [inspect.Parameter]: [param.name], [param.kind] and [param.default],
    the latter being [PyEmpty] when none is declared. *)
Record parameter : Type := MkParameter {
  p_name : string;
  p_kind : param_kind;
  p_default : pyval
}.

Inductive exn : Type :=
  | ValueError          (* raised by [max] on an empty iterable *)
  | Raised (e : pyval)  (* whatever the decorated callable raises *)
  | BadReference.       (* a location that holds no object of the expected type *)

Inductive outcome : Type :=
  | Returns (v : pyval)
  | Raises (e : exn).

(** A callable: its identity, its signature in declaration order, and what a
    call with given positional and keyword arguments does. *)
Record callable : Type := Callable {
  c_module : string;
  c_qualname : string;
  c_parameters : list parameter;
  c_call : list pyval -> dict pyval -> outcome
}.

(** ** Heap, output and the monad of effects *)

Definition loc : Type := nat.

Inductive obj : Type :=
  | OTable (d : dict (pyval * string))   (* name -> (value, category) *)
  | OKwargs (d : dict pyval)             (* name -> value *)
  | ONames (l : list string).

Inductive event : Type :=
  | Print (line : string)
  | Invoke (pargs : list pyval) (kwargs : dict pyval).

Record state : Type := State {
  heap : list obj;
  out : list event
}.

Inductive result (A : Type) : Type :=
  | Ok (a : A) (s : state)
  | Err (e : exn) (s : state).
Arguments Ok {A} a s.
Arguments Err {A} e s.

Definition M (A : Type) : Type := state -> result A.

Global Instance M_ret : MRet M := fun A a s => Ok a s.

Global Instance M_bind : MBind M := fun A B f m s =>
  match m s with
  | Ok a s' => f a s'
  | Err e s' => Err e s'
  end.

Definition raise {A} (e : exn) : M A := fun s => Err e s.

Definition emit (ev : event) : M unit :=
  fun s => Ok tt (State (heap s) (out s ++ [ev])).

Definition print (line : string) : M unit := emit (Print line).

Definition alloc (o : obj) : M loc :=
  fun s => Ok (length (heap s)) (State (heap s ++ [o]) (out s)).

Definition load (l : loc) : M obj :=
  fun s => match heap s !! l with
           | Some o => Ok o s
           | None => Err BadReference s
           end.

Definition store (l : loc) (o : obj) : M unit :=
  fun s => Ok tt (State (<[l := o]> (heap s)) (out s)).

Definition load_table (l : loc) : M (dict (pyval * string)) :=
  o ← load l; match o with OTable d => mret d | _ => raise BadReference end.

Definition load_kwargs (l : loc) : M (dict pyval) :=
  o ← load l; match o with OKwargs d => mret d | _ => raise BadReference end.

Definition load_names (l : loc) : M (list string) :=
  o ← load l; match o with ONames ns => mret ns | _ => raise BadReference end.

(** [d[k] = v] on the dict at [l]. *)
Definition table_setitem (l : loc) (k : string) (v : pyval * string) : M unit :=
  d ← load_table l; store l (OTable (dict_set k v d)).

Definition kwargs_setitem (l : loc) (k : string) (v : pyval) : M unit :=
  d ← load_kwargs l; store l (OKwargs (dict_set k v d)).

(** [d.update(pairs)] on the dict at [l]. *)
Definition table_update (l : loc) (pairs : list (string * (pyval * string))) : M unit :=
  d ← load_table l; store l (OTable (dict_update d pairs)).

(** [d.copy()]: a new object with the same items. *)
Definition table_copy (l : loc) : M loc :=
  d ← load_table l; alloc (OTable d).

(** [names.append(x)] on the list at [l]. *)
Definition names_append (l : loc) (x : string) : M unit :=
  ns ← load_names l; store l (ONames (ns ++ [x])).

(** [x in names] on the list at [l]. *)
Definition names_contains (l : loc) (x : string) : M bool :=
  ns ← load_names l; mret (str_in x ns).

(** [for x in xs: body x]. *)
Fixpoint for_each {A} (xs : list A) (body : A -> M unit) : M unit :=
  match xs with
  | [] => mret tt
  | x :: xs' => body x;; for_each xs' body
  end.

(** A loop that also rebinds local variables, held in [acc]. *)
Fixpoint for_fold {A B} (xs : list A) (acc : B) (body : B -> A -> M B) : M B :=
  match xs with
  | [] => mret acc
  | x :: xs' => acc' ← body acc x; for_fold xs' acc' body
  end.

(** [max(iterable)]: raises [ValueError] when there is nothing to compare. *)
Definition py_max (xs : list nat) : M nat :=
  match xs with
  | [] => raise ValueError
  | x :: xs' => mret (fold_left Nat.max xs' x)
  end.

(** The call of [__c] with the star-unpacked [pargs] and [kwargs]. *)
Definition invoke (c : callable) (pargs : list pyval) (kwargs : dict pyval) : M pyval :=
  emit (Invoke pargs kwargs);;
  match c_call c pargs kwargs with
  | Returns v => mret v
  | Raises e => raise e
  end.

(** ** Text of the report *)

Definition _BOLD_CODE : string := String (ascii_of_nat 27) "[1m".
Definition _UNDERLINE_CODE : string := String (ascii_of_nat 27) "[4m".
Definition _END_CODE : string := String (ascii_of_nat 27) "[0m".

(** [len(s)]. A string is held as its UTF-8 bytes, and Python counts
    characters: every byte but the continuation bytes [10xxxxxx] starts one. *)
Definition is_continuation (ch : ascii) : bool :=
  Nat.leb 128 (nat_of_ascii ch) && Nat.ltb (nat_of_ascii ch) 192.

Fixpoint py_len (s : string) : nat :=
  match s with
  | EmptyString => 0
  | String ch s' => (if is_continuation ch then 0 else 1) + py_len s'
  end.

(** The format spec [<w]: left-aligned in a field of [w] characters. *)
Definition ljust (w : nat) (s : string) : string :=
  s +:+ string_of_list_ascii (repeat " "%char (w - py_len s)).

(** An integer in an f-string. *)
Definition str_int (z : Z) : string := NilZero.string_of_int (Z.to_int z).

(** What the wrapper captures: the decorated callable and the tables built
    at decoration time. The dict and the two lists are references. *)
Record closure : Type := Closure {
  cl_callable : callable;
  param_to_default : loc;
  parg_names : loc;
  kwarg_names : loc;
  star_pargs_name : option string;
  star_kwargs_name : option string;
  pad_length : nat
}.

(** ** Sample inputs

    Callables, a call stack and a rendering of values on which the
    statements below are run. *)

(** How CPython 3.11 renders the values used here: digits for an integer,
    single quotes around a plain string. An integer of more digits than the
    interpreter's limit ([sys.set_int_max_str_digits], 4300 unless set
    otherwise, 640 at the least) is not converted: [repr] raises
    [ValueError], which is [None] here. [safe_repr] falls back on the
    object's default text when [repr] raises, and cuts a long text short. *)
Definition sample_repr_at (max_str_digits : nat) (v : pyval) : option string :=
  match v with
  | PyEmpty => Some "<class 'inspect._empty'>"
  | PyNone => Some "None"
  | PyInt z =>
      if Nat.ltb max_str_digits (String.length (str_int (Z.abs z))) then None
      else Some (str_int z)
  | PyStr s => Some ("'" +:+ s +:+ "'")
  end.

Definition sample_repr : pyval -> option string := sample_repr_at 4300.

(** The same interpreter run with the digit limit at its minimum. *)
Definition sample_repr_640 : pyval -> option string := sample_repr_at 640.

Definition sample_safe_repr (v : pyval) : string :=
  let text := match sample_repr v with
              | Some text => text
              | None => "<int object at 0x7f3a5c0b1e50>"
              end in
  if Nat.ltb (py_len text) 80 then text
  else String.substring 0 80 text +:+ " [truncated]...".

Definition sample_stdlib : string := "/usr/lib/python3.11".
Definition sample_site : string := "/usr/lib/python3.11/site-packages".

(** [def f(a, /, b, *, c, d='x')] *)
Definition f_example (body : list pyval -> dict pyval -> outcome) : callable :=
  Callable "__main__" "f"
    [ MkParameter "a" POSITIONAL_ONLY PyEmpty;
      MkParameter "b" POSITIONAL_OR_KEYWORD PyEmpty;
      MkParameter "c" KEYWORD_ONLY PyEmpty;
      MkParameter "d" KEYWORD_ONLY (PyStr "x") ]
    body.

(** [def f(a, **kw): return a] *)
Definition f_first : callable :=
  Callable "__main__" "f"
    [ MkParameter "a" POSITIONAL_OR_KEYWORD PyEmpty;
      MkParameter "kw" VAR_KEYWORD PyEmpty ]
    (fun pargs kwargs =>
       match pargs, dict_get "a" kwargs with
       | v :: _, _ => Returns v
       | [], Some v => Returns v
       | [], None => Raises (Raised (PyStr "TypeError"))
       end).

(** [def f(a, /, **kw): return a] *)
Definition f_posonly : callable :=
  Callable "__main__" "f"
    [ MkParameter "a" POSITIONAL_ONLY PyEmpty;
      MkParameter "kw" VAR_KEYWORD PyEmpty ]
    (fun pargs kwargs =>
       match pargs with
       | v :: _ => Returns v
       | [] => Raises (Raised (PyStr "TypeError"))
       end).

(** [def f(a, b=0): return a] *)
Definition f_pair : callable :=
  Callable "__main__" "f"
    [ MkParameter "a" POSITIONAL_OR_KEYWORD PyEmpty;
      MkParameter "b" POSITIONAL_OR_KEYWORD (PyInt 0) ]
    (fun pargs kwargs =>
       match pargs, dict_get "a" kwargs with
       | v :: _, None => Returns v
       | [], Some v => Returns v
       | _, _ => Raises (Raised (PyStr "TypeError"))
       end).

(** A callable whose only parameters are the variadic [args] and [kwargs]. *)
Definition f_variadic : callable :=
  Callable "__main__" "f"
    [ MkParameter "args" VAR_POSITIONAL PyEmpty;
      MkParameter "kwargs" VAR_KEYWORD PyEmpty ]
    (fun _ _ => Returns PyNone).

(** The stack seen from the locator when [caller] called the wrapper from
    the top level of a script. *)
Definition sample_stack : list frame :=
  [ Frame "debug_calls/decorators.py" 35 "get_caller_info";
    Frame "debug_calls/decorators.py" 103 "wrapper";
    Frame "main.py" 4 "<module>" ].

(** The same call made through [contextlib]'s decorator layer. *)
Definition sample_stack_skipped : list frame :=
  [ Frame "debug_calls/decorators.py" 35 "get_caller_info";
    Frame "debug_calls/decorators.py" 103 "wrapper";
    Frame "/usr/lib/python3.11/contextlib.py" 81 "inner";
    Frame "main.py" 4 "<module>" ].

(** [f_example] whose body returns [None], its closure and the state that
    decorating it in the empty state leaves. *)
Definition f_none : callable := f_example (fun _ _ => Returns PyNone).

Definition cl_none : closure := Closure f_none 0 1 2 None None 1.

Definition s_none : state :=
  State [ OTable [ ("a", (PyEmpty, "d")); ("b", (PyEmpty, "d"));
                   ("c", (PyEmpty, "d")); ("d", (PyStr "x", "d")) ];
          ONames ["a"; "b"];
          ONames ["b"; "c"; "d"] ] [].

Definition cl_first : closure := Closure f_first 0 1 2 None (Some "kw") 1.

Definition s_first : state :=
  State [ OTable [("a", (PyEmpty, "d"))]; ONames ["a"]; ONames ["a"] ] [].

Definition cl_posonly : closure := Closure f_posonly 0 1 2 None (Some "kw") 1.

Definition s_posonly : state :=
  State [ OTable [("a", (PyEmpty, "d"))]; ONames ["a"]; ONames [] ] [].

(** [def f(a, *rest): return a] *)
Definition f_rest : callable :=
  Callable "__main__" "f"
    [ MkParameter "a" POSITIONAL_OR_KEYWORD PyEmpty;
      MkParameter "rest" VAR_POSITIONAL PyEmpty ]
    (fun pargs kwargs =>
       match pargs, dict_get "a" kwargs with
       | v :: _, _ => Returns v
       | [], Some v => Returns v
       | [], None => Raises (Raised (PyStr "TypeError"))
       end).

Definition cl_rest : closure := Closure f_rest 0 1 2 (Some "rest") None 1.

Definition s_rest : state :=
  State [ OTable [("a", (PyEmpty, "d"))]; ONames ["a"]; ONames ["a"] ] [].

(** [def f(x, señal=0): return x]: a name of five characters held in six
    bytes. *)
Definition f_long : callable :=
  Callable "__main__" "f"
    [ MkParameter "x" POSITIONAL_OR_KEYWORD PyEmpty;
      MkParameter "señal" POSITIONAL_OR_KEYWORD (PyInt 0) ]
    (fun pargs kwargs =>
       match pargs, dict_get "x" kwargs with
       | v :: _, _ => Returns v
       | [], Some v => Returns v
       | [], None => Raises (Raised (PyStr "TypeError"))
       end).

Definition cl_long : closure := Closure f_long 0 1 2 None None 5.

Definition s_long : state :=
  State [ OTable [("x", (PyEmpty, "d")); ("señal", (PyInt 0, "d"))];
          ONames ["x"; "señal"];
          ONames ["x"; "señal"] ] [].

Definition cl_pair : closure := Closure f_pair 0 1 2 None None 1.

Definition s_pair : state :=
  State [ OTable [("a", (PyEmpty, "d")); ("b", (PyInt 0, "d"))];
          ONames ["a"; "b"];
          ONames ["a"; "b"] ] [].

Section Decorator.

(** Library functions the wrapper prints values with.
    [unittest.util.safe_repr(value, short=True)] catches what [repr] raises
    and always returns a text. The builtin [repr] is called unguarded: on the
    values of [pyval] it either returns a text or raises [ValueError] (an
    integer beyond the digit limit of the conversion), which is [None]. *)
Variable safe_repr : pyval -> string.
Variable repr : pyval -> option string.

(** The text of a formatted value, or the [ValueError] of its [repr]. *)
Definition formatted (text : option string) : M string :=
  match text with
  | Some text => mret text
  | None => raise ValueError
  end.

(** [sysconfig.get_path("stdlib")] and [sysconfig.get_path("purelib")]. *)
Variable _STDLIB_PREFIX : string.
Variable _SITE_PACKAGES_PREFIX : string.

Definition _FRAMES_TO_SKIP : list (string * string) :=
  [ (_STDLIB_PREFIX +:+ "/contextlib.py", "inner");
    (_SITE_PACKAGES_PREFIX +:+ "/celery/app/task.py", "__call__");
    (_SITE_PACKAGES_PREFIX +:+ "/celery/local.py", "__call__");
    (_SITE_PACKAGES_PREFIX +:+ "/ddtrace/tracer.py", "func_wrapper") ].

(** A tuple in an f-string: the [repr] of its items, taken in order, between
    parentheses, with the trailing comma of a one-item tuple; nothing when
    the [repr] of an item raises. *)
Definition str_tuple (vs : list pyval) : option string :=
  texts ← mapM repr vs;
  Some match texts with
       | [text] => "(" +:+ text +:+ ",)"
       | _ => "(" +:+ String.concat ", " texts +:+ ")"
       end.

Definition title_line (c : callable) : string :=
  _BOLD_CODE +:+ _UNDERLINE_CODE +:+ c_module c +:+ "." +:+ c_qualname c +:+ _END_CODE.

Definition caller_line (info : string * Z * string * bool) : string :=
  let '(filename, lineno, caller_name, frames_skipped) := info in
  "Called by " +:+ caller_name +:+ " at " +:+ filename +:+ ":" +:+ str_int lineno
    +:+ " " +:+ (if frames_skipped then "(skipped decorators)" else EmptyString).

Definition param_line (pad : nat) (item : string * (pyval * string)) : string :=
  let '(name, (value, input_type)) := item in
  "(" +:+ input_type +:+ ") " +:+ ljust pad name +:+ ": " +:+ safe_repr value.

Definition star_kwarg_line (pad : nat) (item : string * pyval) : option string :=
  let '(name, value) := item in
  text ← repr value;
  Some ("     " +:+ ljust pad name +:+ ": " +:+ text).

(** ** The decorator *)

(** The body of the loop over [parameters.items()]; [stars] holds the local
    variables [star_pargs_name] and [star_kwargs_name]. *)
Definition scan_parameter (param_to_default parg_names kwarg_names : loc)
    (stars : option string * option string) (param : parameter)
    : M (option string * option string) :=
  let name := p_name param in
  match p_kind param with
  | POSITIONAL_ONLY =>
      table_setitem param_to_default name (p_default param, "d");;
      names_append parg_names name;;
      mret stars
  | POSITIONAL_OR_KEYWORD =>
      table_setitem param_to_default name (p_default param, "d");;
      names_append parg_names name;;
      names_append kwarg_names name;;
      mret stars
  | KEYWORD_ONLY =>
      table_setitem param_to_default name (p_default param, "d");;
      names_append kwarg_names name;;
      mret stars
  | VAR_POSITIONAL => mret (Some name, snd stars)
  | VAR_KEYWORD => mret (fst stars, Some name)
  end.

Definition debug_calls (c : callable) : M closure :=
  let parameters := c_parameters c in
  param_to_default ← alloc (OTable []);
  parg_names ← alloc (ONames []);
  kwarg_names ← alloc (ONames []);
  stars ← for_fold parameters (None, None)
             (scan_parameter param_to_default parg_names kwarg_names);
  table ← load_table param_to_default;
  pad_length ← py_max (map py_len (dict_keys table));
  mret (Closure c param_to_default parg_names kwarg_names
                (fst stars) (snd stars) pad_length).

(** The body of the loop over [kwargs.items()]. *)
Definition apply_kwarg (kwarg_names arg_to_value star_kwargs : loc)
    (item : string * pyval) : M unit :=
  let '(name, value) := item in
  known ← names_contains kwarg_names name;
  if known : bool
  then table_setitem arg_to_value name (value, "k")
  else kwargs_setitem star_kwargs name value.

(** [[name for name in parg_names if name not in kwargs.items()]] *)
Definition remaining_parg_names (parg_names : list string) (kwargs : dict pyval)
    : list string :=
  List.filter (fun name => negb (in_items (OpStr name) kwargs)) parg_names.

Definition wrapper (cl : closure) (stack : list frame)
    (pargs : list pyval) (kwargs : dict pyval) : M pyval :=
  print EmptyString;;
  let info := get_caller_info _FRAMES_TO_SKIP stack in
  print (title_line (cl_callable cl));;
  print (caller_line info);;
  arg_to_value ← table_copy (param_to_default cl);
  star_kwargs ← alloc (OKwargs []);
  for_each kwargs (apply_kwarg (kwarg_names cl) arg_to_value star_kwargs);;
  names ← load_names (parg_names cl);
  let remaining := remaining_parg_names names kwargs in
  table_update arg_to_value (combine remaining (list_prod pargs ["p"]));;
  let star_pargs := skipn (length remaining) pargs in
  items ← load_table arg_to_value;
  for_each items (fun item => print (param_line (pad_length cl) item));;
  match star_pargs_name cl with
  | Some star_name =>
      print (" *" +:+ star_name +:+ ":");;
      text ← formatted (str_tuple star_pargs);
      print ("     " +:+ text)
  | None => mret tt
  end;;
  match star_kwargs_name cl with
  | Some star_name =>
      print (" **" +:+ star_name +:+ ":");;
      extra ← load_kwargs star_kwargs;
      star_kwarg_pad_length ← py_max (map py_len (dict_keys extra));
      extra_items ← load_kwargs star_kwargs;
      for_each extra_items (fun item =>
        line ← formatted (star_kwarg_line star_kwarg_pad_length item);
        print line)
  | None => mret tt
  end;;
  invoke (cl_callable cl) pargs kwargs.

(** Decorating [c] and then calling the result, from an empty heap. *)
Definition initial : state := State [] [].

Definition decorate_and_call (c : callable) (stack : list frame)
    (pargs : list pyval) (kwargs : dict pyval) : result pyval :=
  (cl ← debug_calls c; wrapper cl stack pargs kwargs) initial.


(** ** The tables and the report as values

    What the loops of the decorator and of the wrapper compute, written as
    folds over the same steps; the lemmas below relate them to the heap
    programs. *)

Definition named (p : parameter) : bool :=
  match p_kind p with
  | POSITIONAL_ONLY | POSITIONAL_OR_KEYWORD | KEYWORD_ONLY => true
  | VAR_POSITIONAL | VAR_KEYWORD => false
  end.

Definition positional_capable (p : parameter) : bool :=
  match p_kind p with
  | POSITIONAL_ONLY | POSITIONAL_OR_KEYWORD => true
  | _ => false
  end.

Definition keyword_capable (p : parameter) : bool :=
  match p_kind p with
  | POSITIONAL_OR_KEYWORD | KEYWORD_ONLY => true
  | _ => false
  end.

Record tables : Type := Tables {
  t_defaults : dict (pyval * string);
  t_pargs : list string;
  t_kwargs : list string;
  t_stars : option string * option string
}.

Definition scan_step (t : tables) (param : parameter) : tables :=
  let name := p_name param in
  match p_kind param with
  | POSITIONAL_ONLY =>
      Tables (dict_set name (p_default param, "d") (t_defaults t))
             (t_pargs t ++ [name]) (t_kwargs t) (t_stars t)
  | POSITIONAL_OR_KEYWORD =>
      Tables (dict_set name (p_default param, "d") (t_defaults t))
             (t_pargs t ++ [name]) (t_kwargs t ++ [name]) (t_stars t)
  | KEYWORD_ONLY =>
      Tables (dict_set name (p_default param, "d") (t_defaults t))
             (t_pargs t) (t_kwargs t ++ [name]) (t_stars t)
  | VAR_POSITIONAL =>
      Tables (t_defaults t) (t_pargs t) (t_kwargs t) (Some name, snd (t_stars t))
  | VAR_KEYWORD =>
      Tables (t_defaults t) (t_pargs t) (t_kwargs t) (fst (t_stars t), Some name)
  end.

Definition scan (params : list parameter) : tables :=
  fold_left scan_step params (Tables [] [] [] (None, None)).

Definition default_item (p : parameter) : string * (pyval * string) :=
  (p_name p, (p_default p, "d")).

(** The static tables of [c] hold at the closure's locations in [s]. *)
Definition tables_at (c : callable) (cl : closure) (s : state) : Prop :=
  let t := scan (c_parameters c) in
  heap s !! param_to_default cl = Some (OTable (t_defaults t))
  /\ heap s !! parg_names cl = Some (ONames (t_pargs t))
  /\ heap s !! kwarg_names cl = Some (ONames (t_kwargs t)).

(** One keyword argument: into the table when its name is keyword-capable,
    into the excess collection otherwise. *)
Definition classify_step (kwarg_names : list string)
    (acc : dict (pyval * string) * dict pyval) (item : string * pyval)
    : dict (pyval * string) * dict pyval :=
  if str_in (fst item) kwarg_names
  then (dict_set (fst item) (snd item, "k") (fst acc), snd acc)
  else (fst acc, dict_set (fst item) (snd item) (snd acc)).

Definition classify (kwarg_names : list string) (defaults : dict (pyval * string))
    (kwargs : dict pyval) : dict (pyval * string) * dict pyval :=
  fold_left (classify_step kwarg_names) kwargs (defaults, []).

(** The per-call table once keyword and positional arguments are in. *)
Definition arg_table (t : tables) (pargs : list pyval) (kwargs : dict pyval)
    : dict (pyval * string) :=
  dict_update (fst (classify (t_kwargs t) (t_defaults t) kwargs))
    (combine (remaining_parg_names (t_pargs t) kwargs) (list_prod pargs ["p"])).

Definition excess_kwargs (t : tables) (kwargs : dict pyval) : dict pyval :=
  snd (classify (t_kwargs t) (t_defaults t) kwargs).

Definition excess_pargs (t : tables) (pargs : list pyval) (kwargs : dict pyval)
    : list pyval :=
  skipn (length (remaining_parg_names (t_pargs t) kwargs)) pargs.

(** The lines a state has printed and the calls it has made. *)
Definition printed (evs : list event) : list string :=
  flat_map (fun ev => match ev with Print l => [l] | Invoke _ _ => [] end) evs.

Definition invocations (evs : list event) : list (list pyval * dict pyval) :=
  flat_map (fun ev => match ev with Print _ => [] | Invoke p k => [(p, k)] end) evs.

Definition final_state {A} (r : result A) : state :=
  match r with Ok _ s => s | Err _ s => s end.

Definition outcome_of (r : result pyval) : outcome :=
  match r with Ok v _ => Returns v | Err e _ => Raises e end.

Definition finish (c : callable) (pargs : list pyval) (kwargs : dict pyval)
    (s : state) : result pyval :=
  match c_call c pargs kwargs with
  | Returns v => Ok v s
  | Raises e => Err e s
  end.

Definition report_head (cl : closure) (stack : list frame) : list event :=
  [ Print EmptyString;
    Print (title_line (cl_callable cl));
    Print (caller_line (get_caller_info _FRAMES_TO_SKIP stack)) ].

Definition report_named (cl : closure) (table : dict (pyval * string)) : list event :=
  map (fun item => Print (param_line (pad_length cl) item)) table.

(** The variadic-positional section: what it prints, and whether it gets to
    its end (it does not when rendering the tuple raises). *)
Definition star_pargs_section (cl : closure) (star_pargs : list pyval)
    : list event * bool :=
  match star_pargs_name cl with
  | Some star_name =>
      match str_tuple star_pargs with
      | Some text =>
          ([ Print (" *" +:+ star_name +:+ ":"); Print ("     " +:+ text) ], true)
      | None => ([ Print (" *" +:+ star_name +:+ ":") ], false)
      end
  | None => ([], true)
  end.

(** The lines of the excess keywords, up to the first whose value cannot be
    rendered, and whether all of them were printed. *)
Fixpoint star_kwargs_section (pad : nat) (extra : dict pyval) : list event * bool :=
  match extra with
  | [] => ([], true)
  | item :: rest =>
      match star_kwarg_line pad item with
      | Some line =>
          (Print line :: fst (star_kwargs_section pad rest),
           snd (star_kwargs_section pad rest))
      | None => ([], false)
      end
  end.

(** The whole effect of one call of the wrapper on a state that holds the
    tables [t]. *)
Definition wrapper_result (t : tables) (cl : closure) (stack : list frame)
    (pargs : list pyval) (kwargs : dict pyval) (s : state) : result pyval :=
  let table := arg_table t pargs kwargs in
  let extra := excess_kwargs t kwargs in
  let h := heap s ++ [OTable table; OKwargs extra] in
  let positional := star_pargs_section cl (excess_pargs t pargs kwargs) in
  let o := out s ++ report_head cl stack ++ report_named cl table ++ fst positional in
  if snd positional then
    match star_kwargs_name cl with
    | Some star_name =>
        let heading := Print (" **" +:+ star_name +:+ ":") in
        match map py_len (dict_keys extra) with
        | [] => Err ValueError (State h (o ++ [heading]))
        | x :: xs =>
            let keywords := star_kwargs_section (fold_left Nat.max xs x) extra in
            if snd keywords
            then finish (cl_callable cl) pargs kwargs
                   (State h (o ++ heading :: fst keywords ++ [Invoke pargs kwargs]))
            else Err ValueError (State h (o ++ heading :: fst keywords))
        end
    | None =>
        finish (cl_callable cl) pargs kwargs (State h (o ++ [Invoke pargs kwargs]))
    end
  else Err ValueError (State h o).

(** The two variadic sections of a report reach their end. *)
Definition sections_done (t : tables) (cl : closure)
    (pargs : list pyval) (kwargs : dict pyval) : Prop :=
  snd (star_pargs_section cl (excess_pargs t pargs kwargs)) = true
  /\ forall pad, star_kwargs_name cl <> None ->
       snd (star_kwargs_section pad (excess_kwargs t kwargs)) = true.

(** [repr] raises on none of the arguments of a call. *)
Definition repr_ok (v : pyval) : bool :=
  match repr v with Some _ => true | None => false end.

Definition renders (pargs : list pyval) (kwargs : dict pyval) : bool :=
  forallb repr_ok pargs && forallb (fun item => repr_ok (snd item)) kwargs.

(** ** Calls and what they supply *)

Fixpoint distinct (names : list string) : bool :=
  match names with
  | [] => true
  | n :: rest => negb (str_in n rest) && distinct rest
  end.

Definition is_var_positional (p : parameter) : bool :=
  match p_kind p with VAR_POSITIONAL => true | _ => false end.

Definition is_var_keyword (p : parameter) : bool :=
  match p_kind p with VAR_KEYWORD => true | _ => false end.

Definition positional_names (c : callable) : list string :=
  map p_name (List.filter positional_capable (c_parameters c)).

Definition keyword_names (c : callable) : list string :=
  map p_name (List.filter keyword_capable (c_parameters c)).

Definition named_names (c : callable) : list string :=
  map p_name (List.filter named (c_parameters c)).

(** A signature never declares a name twice. *)
Definition well_formed (c : callable) : bool :=
  distinct (map p_name (c_parameters c)).

(** Positional arguments fill the positional-capable parameters in order. *)
Definition supplied_by_position (c : callable) (pargs : list pyval)
    (name : string) : option pyval :=
  dict_get name (combine (positional_names c) pargs).

(** A keyword argument binds the keyword-capable parameter of its name. *)
Definition supplied_by_name (c : callable) (kwargs : dict pyval)
    (name : string) : option pyval :=
  if str_in name (keyword_names c) then dict_get name kwargs else None.

(** What the report says of a named parameter: the argument that fell on its
    position, else the keyword argument of its name, else its default. *)
Definition reported (c : callable) (pargs : list pyval) (kwargs : dict pyval)
    (p : parameter) : pyval * string :=
  match supplied_by_position c pargs (p_name p) with
  | Some v => (v, "p")
  | None =>
      match supplied_by_name c kwargs (p_name p) with
      | Some v => (v, "k")
      | None => (p_default p, "d")
      end
  end.

(** The calls Python accepts for the signature of [c]: positional arguments
    beyond the named slots and unknown keywords need a variadic parameter, no
    parameter gets two values, and a parameter that gets none has a default. *)
Definition valid_call (c : callable) (pargs : list pyval) (kwargs : dict pyval) : bool :=
  distinct (dict_keys kwargs)
  && (Nat.leb (length pargs) (length (positional_names c))
      || existsb is_var_positional (c_parameters c))
  && forallb (fun item => str_in (fst item) (keyword_names c)
                          || existsb is_var_keyword (c_parameters c)) kwargs
  && forallb (fun p =>
       negb (named p)
       || match supplied_by_position c pargs (p_name p),
                supplied_by_name c kwargs (p_name p) with
          | Some _, Some _ => false
          | None, None => negb (pyval_eqb (p_default p) PyEmpty)
          | _, _ => true
          end) (c_parameters c).

(** The filter that the comment above [remaining_parg_names] describes:
    names already used as keyword arguments are left out. *)
Definition remaining_by_keys (parg_names : list string) (kwargs : dict pyval)
    : list string :=
  List.filter (fun name => negb (str_in name (dict_keys kwargs))) parg_names.

(** The states in which [cl] is the wrapper of [c]: the one the decorator
    leaves, and the one any call of the wrapper leaves, whatever its outcome. *)
Inductive live (c : callable) (cl : closure) : state -> Prop :=
  | live_decorated s0 s :
      debug_calls c s0 = Ok cl s -> live c cl s
  | live_called s stack pargs kwargs :
      live c cl s -> live c cl (final_state (wrapper cl stack pargs kwargs s)).
(** ** Running the monad *)

Lemma bind_ok {A B} (m : M A) (f : A -> M B) s a s' :
  m s = Ok a s' -> (m ≫= f) s = f a s'.
Proof. intros H. unfold mbind, M_bind. now rewrite H. Qed.

Lemma bind_err {A B} (m : M A) (f : A -> M B) s e s' :
  m s = Err e s' -> (m ≫= f) s = Err e s'.
Proof. intros H. unfold mbind, M_bind. now rewrite H. Qed.

Lemma bind_assoc {A B C} (m : M A) (f : A -> M B) (g : B -> M C) s :
  ((m ≫= f) ≫= g) s = (m ≫= fun a => f a ≫= g) s.
Proof. unfold mbind, M_bind. now destruct (m s). Qed.

Lemma load_at l o s : heap s !! l = Some o -> load l s = Ok o s.
Proof. intros H. unfold load. now rewrite H. Qed.

Lemma load_table_at l d s :
  heap s !! l = Some (OTable d) -> load_table l s = Ok d s.
Proof. intros H. unfold load_table. now rewrite (bind_ok _ _ _ _ _ (load_at _ _ _ H)). Qed.

Lemma load_kwargs_at l d s :
  heap s !! l = Some (OKwargs d) -> load_kwargs l s = Ok d s.
Proof. intros H. unfold load_kwargs. now rewrite (bind_ok _ _ _ _ _ (load_at _ _ _ H)). Qed.

Lemma load_names_at l ns s :
  heap s !! l = Some (ONames ns) -> load_names l s = Ok ns s.
Proof. intros H. unfold load_names. now rewrite (bind_ok _ _ _ _ _ (load_at _ _ _ H)). Qed.

Lemma table_setitem_at l k v d s :
  heap s !! l = Some (OTable d) ->
  table_setitem l k v s = Ok tt (State (<[l := OTable (dict_set k v d)]> (heap s)) (out s)).
Proof. intros H. unfold table_setitem. now rewrite (bind_ok _ _ _ _ _ (load_table_at _ _ _ H)). Qed.

Lemma kwargs_setitem_at l k v d s :
  heap s !! l = Some (OKwargs d) ->
  kwargs_setitem l k v s = Ok tt (State (<[l := OKwargs (dict_set k v d)]> (heap s)) (out s)).
Proof. intros H. unfold kwargs_setitem. now rewrite (bind_ok _ _ _ _ _ (load_kwargs_at _ _ _ H)). Qed.

Lemma table_update_at l pairs d s :
  heap s !! l = Some (OTable d) ->
  table_update l pairs s = Ok tt (State (<[l := OTable (dict_update d pairs)]> (heap s)) (out s)).
Proof. intros H. unfold table_update. now rewrite (bind_ok _ _ _ _ _ (load_table_at _ _ _ H)). Qed.

Lemma table_copy_at l d s :
  heap s !! l = Some (OTable d) ->
  table_copy l s = Ok (length (heap s)) (State (heap s ++ [OTable d]) (out s)).
Proof. intros H. unfold table_copy. now rewrite (bind_ok _ _ _ _ _ (load_table_at _ _ _ H)). Qed.

Lemma names_append_at l x ns s :
  heap s !! l = Some (ONames ns) ->
  names_append l x s = Ok tt (State (<[l := ONames (ns ++ [x])]> (heap s)) (out s)).
Proof. intros H. unfold names_append. now rewrite (bind_ok _ _ _ _ _ (load_names_at _ _ _ H)). Qed.

Lemma names_contains_at l x ns s :
  heap s !! l = Some (ONames ns) -> names_contains l x s = Ok (str_in x ns) s.
Proof. intros H. unfold names_contains. now rewrite (bind_ok _ _ _ _ _ (load_names_at _ _ _ H)). Qed.

Lemma for_each_print {A} (f : A -> string) (xs : list A) s :
  for_each xs (fun x => print (f x)) s
    = Ok tt (State (heap s) (out s ++ map (fun x => Print (f x)) xs)).
Proof.
  revert s. induction xs as [|x xs IH]; intros s; simpl.
  - rewrite app_nil_r. now destruct s.
  - unfold mbind, M_bind, print, emit. rewrite IH. simpl.
    now rewrite <- app_assoc.
Qed.

(** Objects at the end of the heap: the ones a computation has just made. *)
Lemma lookup_fresh_0 (h : list obj) a rest : (h ++ a :: rest) !! length h = Some a.
Proof. now rewrite list_lookup_middle. Qed.

Lemma lookup_fresh_1 (h : list obj) a b rest :
  (h ++ a :: b :: rest) !! S (length h) = Some b.
Proof.
  replace (h ++ a :: b :: rest) with ((h ++ [a]) ++ b :: rest) by now rewrite <- app_assoc.
  apply list_lookup_middle. rewrite length_app. simpl. lia.
Qed.

Lemma lookup_fresh_2 (h : list obj) a b c rest :
  (h ++ a :: b :: c :: rest) !! S (S (length h)) = Some c.
Proof.
  replace (h ++ a :: b :: c :: rest) with ((h ++ [a; b]) ++ c :: rest) by now rewrite <- app_assoc.
  apply list_lookup_middle. rewrite length_app. simpl. lia.
Qed.

Lemma insert_fresh_0 (h : list obj) a a' rest :
  <[length h := a']> (h ++ a :: rest) = h ++ a' :: rest.
Proof. now rewrite insert_app_r_alt, Nat.sub_diag by lia. Qed.

Lemma insert_fresh_1 (h : list obj) a b b' rest :
  <[S (length h) := b']> (h ++ a :: b :: rest) = h ++ a :: b' :: rest.
Proof.
  rewrite insert_app_r_alt by lia.
  now replace (S (length h) - length h) with 1 by lia.
Qed.

Lemma insert_fresh_2 (h : list obj) a b c c' rest :
  <[S (S (length h)) := c']> (h ++ a :: b :: c :: rest) = h ++ a :: b :: c' :: rest.
Proof.
  rewrite insert_app_r_alt by lia.
  now replace (S (S (length h)) - length h) with 2 by lia.
Qed.

Lemma lookup_old (h ext : list obj) l o : h !! l = Some o -> (h ++ ext) !! l = Some o.
Proof. apply lookup_app_l_Some. Qed.

(** ** What the decorator builds *)

Lemma scan_parameter_run h d pn kn o stars param :
  let t := scan_step (Tables d pn kn stars) param in
  scan_parameter (length h) (S (length h)) (S (S (length h))) stars param
      (State (h ++ [OTable d; ONames pn; ONames kn]) o)
    = Ok (t_stars t)
         (State (h ++ [OTable (t_defaults t); ONames (t_pargs t); ONames (t_kwargs t)]) o).
Proof.
  unfold scan_parameter, scan_step. destruct (p_kind param); simpl; try reflexivity.
  - erewrite bind_ok by (apply table_setitem_at, lookup_fresh_0). simpl.
    rewrite insert_fresh_0.
    erewrite bind_ok by (apply names_append_at, lookup_fresh_1). simpl.
    now rewrite insert_fresh_1.
  - erewrite bind_ok by (apply table_setitem_at, lookup_fresh_0). simpl.
    rewrite insert_fresh_0.
    erewrite bind_ok by (apply names_append_at, lookup_fresh_1). simpl.
    rewrite insert_fresh_1.
    erewrite bind_ok by (apply names_append_at, lookup_fresh_2). simpl.
    now rewrite insert_fresh_2.
  - erewrite bind_ok by (apply table_setitem_at, lookup_fresh_0). simpl.
    rewrite insert_fresh_0.
    erewrite bind_ok by (apply names_append_at, lookup_fresh_2). simpl.
    now rewrite insert_fresh_2.
Qed.

Lemma scan_loop_run params : forall h d pn kn o stars,
  let t := fold_left scan_step params (Tables d pn kn stars) in
  for_fold params stars
      (scan_parameter (length h) (S (length h)) (S (S (length h))))
      (State (h ++ [OTable d; ONames pn; ONames kn]) o)
    = Ok (t_stars t)
         (State (h ++ [OTable (t_defaults t); ONames (t_pargs t); ONames (t_kwargs t)]) o).
Proof.
  induction params as [|param params IH]; intros h d pn kn o stars; simpl.
  - reflexivity.
  - erewrite bind_ok by apply scan_parameter_run.
    destruct (scan_step (Tables d pn kn stars) param) as [d' pn' kn' stars'] eqn:E.
    simpl. apply IH.
Qed.

(** The decorator, run in any state: it raises [ValueError] when no
    parameter is named, and otherwise allocates the three tables. *)
Lemma debug_calls_run c s :
  let t := scan (c_parameters c) in
  let h := heap s ++ [OTable (t_defaults t); ONames (t_pargs t); ONames (t_kwargs t)] in
  debug_calls c s =
    match map py_len (dict_keys (t_defaults t)) with
    | [] => Err ValueError (State h (out s))
    | x :: xs =>
        Ok (Closure c (length (heap s)) (S (length (heap s))) (S (S (length (heap s))))
                    (fst (t_stars t)) (snd (t_stars t)) (fold_left Nat.max xs x))
           (State h (out s))
    end.
Proof.
  intros t h. unfold debug_calls.
  unfold mbind at 1. unfold M_bind. unfold alloc at 1. simpl.
  unfold mbind at 1. unfold M_bind. unfold alloc at 1. simpl.
  unfold mbind at 1. unfold M_bind. unfold alloc at 1. simpl.
  rewrite !length_app. simpl.
  replace (length (heap s) + 1) with (S (length (heap s))) by lia.
  replace (S (length (heap s)) + 1) with (S (S (length (heap s)))) by lia.
  rewrite <- !app_assoc. simpl.
  erewrite bind_ok by apply scan_loop_run.
  fold (scan (c_parameters c)). fold t.
  erewrite bind_ok by (apply load_table_at, lookup_fresh_0).
  fold h.
  destruct (map py_len (dict_keys (t_defaults t))) as [|x xs]; reflexivity.
Qed.

(** ** What one call of the wrapper does *)

Lemma apply_kwarg_run h T E o kn KN item :
  h !! kn = Some (ONames KN) ->
  let acc := classify_step KN (T, E) item in
  apply_kwarg kn (length h) (S (length h)) item
      (State (h ++ [OTable T; OKwargs E]) o)
    = Ok tt (State (h ++ [OTable (fst acc); OKwargs (snd acc)]) o).
Proof.
  intros Hkn. destruct item as [name value]. unfold apply_kwarg, classify_step.
  erewrite bind_ok by (apply names_contains_at; simpl; apply lookup_old, Hkn).
  simpl. destruct (str_in name KN).
  - erewrite table_setitem_at by apply lookup_fresh_0. simpl.
    now rewrite insert_fresh_0.
  - erewrite kwargs_setitem_at by apply lookup_fresh_1. simpl.
    now rewrite insert_fresh_1.
Qed.

Lemma apply_kwargs_run kwargs : forall h T E o kn KN,
  h !! kn = Some (ONames KN) ->
  let acc := fold_left (classify_step KN) kwargs (T, E) in
  for_each kwargs (apply_kwarg kn (length h) (S (length h)))
      (State (h ++ [OTable T; OKwargs E]) o)
    = Ok tt (State (h ++ [OTable (fst acc); OKwargs (snd acc)]) o).
Proof.
  induction kwargs as [|item kwargs IH]; intros h T E o kn KN Hkn; cbn [for_each fold_left].
  - reflexivity.
  - erewrite bind_ok by (apply apply_kwarg_run with (KN := KN); exact Hkn).
    destruct (classify_step KN (T, E) item) as [T' E'] eqn:Hstep. cbn [fst snd].
    now apply IH.
Qed.

Lemma star_pargs_run cl star_pargs h o :
  match star_pargs_name cl with
  | Some star_name =>
      print (" *" +:+ star_name +:+ ":");;
      text ← formatted (str_tuple star_pargs);
      print ("     " +:+ text)
  | None => mret tt
  end (State h o)
  = if snd (star_pargs_section cl star_pargs)
    then Ok tt (State h (o ++ fst (star_pargs_section cl star_pargs)))
    else Err ValueError (State h (o ++ fst (star_pargs_section cl star_pargs))).
Proof.
  unfold star_pargs_section. destruct (star_pargs_name cl).
  - destruct (str_tuple star_pargs); cbn [fst snd];
      unfold mbind, M_bind, print, emit, formatted, mret, M_ret, raise; cbn [heap out].
    + now rewrite <- app_assoc.
    + reflexivity.
  - unfold mret, M_ret. cbn [fst snd]. now rewrite app_nil_r.
Qed.

Lemma star_kwargs_run pad extra : forall h o,
  for_each extra (fun item => line ← formatted (star_kwarg_line pad item); print line)
      (State h o)
  = if snd (star_kwargs_section pad extra)
    then Ok tt (State h (o ++ fst (star_kwargs_section pad extra)))
    else Err ValueError (State h (o ++ fst (star_kwargs_section pad extra))).
Proof.
  induction extra as [|item extra IH]; intros h o; cbn [for_each star_kwargs_section].
  - cbn [fst snd]. unfold mret, M_ret. now rewrite app_nil_r.
  - destruct (star_kwarg_line pad item) as [line|]; cbn [fst snd].
    + unfold mbind at 1. unfold M_bind.
      unfold mbind at 1. unfold M_bind, formatted, mret, M_ret, print, emit.
      cbn [heap out]. rewrite IH.
      destruct (snd (star_kwargs_section pad extra)); now rewrite <- app_assoc.
    + unfold mbind, M_bind, formatted, raise. now rewrite app_nil_r.
Qed.

Lemma invoke_run c pargs kwargs s :
  invoke c pargs kwargs s
    = finish c pargs kwargs (State (heap s) (out s ++ [Invoke pargs kwargs])).
Proof.
  unfold invoke, finish, mbind, M_bind, emit.
  now destruct (c_call c pargs kwargs).
Qed.

Ltac flatten_out :=
  repeat (rewrite <- app_assoc || rewrite <- app_comm_cons); reflexivity.

Lemma wrapper_run t cl stack pargs kwargs s :
  heap s !! param_to_default cl = Some (OTable (t_defaults t)) ->
  heap s !! parg_names cl = Some (ONames (t_pargs t)) ->
  heap s !! kwarg_names cl = Some (ONames (t_kwargs t)) ->
  wrapper cl stack pargs kwargs s = wrapper_result t cl stack pargs kwargs s.
Proof.
  intros Hd Hp Hk.
  unfold wrapper, wrapper_result, arg_table, excess_kwargs, excess_pargs,
    classify, report_named, report_head.
  erewrite bind_ok by reflexivity.
  erewrite bind_ok by reflexivity.
  erewrite bind_ok by reflexivity.
  erewrite bind_ok by (apply table_copy_at; cbn [heap]; exact Hd).
  erewrite bind_ok by reflexivity.
  cbn [heap out]. rewrite length_app. cbn [length]. rewrite Nat.add_1_r.
  rewrite <- !app_assoc. cbn [app].
  erewrite bind_ok by (now apply apply_kwargs_run with (KN := t_kwargs t)).
  erewrite bind_ok by (apply load_names_at; cbn [heap]; apply lookup_old, Hp).
  erewrite bind_ok by (apply table_update_at, lookup_fresh_0).
  cbn [heap out]. rewrite insert_fresh_0.
  erewrite bind_ok by (apply load_table_at, lookup_fresh_0).
  erewrite bind_ok by apply for_each_print.
  cbn [heap out]. unfold dict.
  match goal with
  | |- context [star_pargs_section cl ?sp] =>
      pose proof (star_pargs_run cl sp) as Hsp;
      destruct (snd (star_pargs_section cl sp));
      generalize dependent (fst (star_pargs_section cl sp)); intros pevs Hsp
  end.
  - erewrite bind_ok by apply Hsp.
    destruct (star_kwargs_name cl) as [star_name|].
    + rewrite bind_assoc.
      erewrite bind_ok by reflexivity.
      rewrite bind_assoc.
      erewrite bind_ok by (apply load_kwargs_at, lookup_fresh_1).
      rewrite bind_assoc. cbn [heap out].
      match goal with |- context [py_max ?l] => destruct l as [|x xs] end.
      * cbn. f_equal. f_equal. flatten_out.
      * erewrite (bind_ok (py_max _)) by reflexivity.
        rewrite bind_assoc.
        erewrite bind_ok by (apply load_kwargs_at, lookup_fresh_1).
        match goal with
        | |- context [star_kwargs_section ?pad ?extra] =>
            pose proof (star_kwargs_run pad extra) as Hsk;
            destruct (snd (star_kwargs_section pad extra));
            generalize dependent (fst (star_kwargs_section pad extra)); intros kevs Hsk
        end.
        -- erewrite bind_ok by apply Hsk.
           rewrite invoke_run. cbn [heap out]. f_equal. f_equal. flatten_out.
        -- erewrite bind_err by apply Hsk. f_equal. f_equal. flatten_out.
    + erewrite bind_ok by reflexivity.
      rewrite invoke_run. cbn [heap out]. f_equal. f_equal. flatten_out.
  - erewrite bind_err by apply Hsp. f_equal. f_equal. flatten_out.
Qed.

(** ** Dictionaries *)

Lemma str_in_In k l : str_in k l = true <-> In k l.
Proof.
  unfold str_in. rewrite existsb_exists. split.
  - intros (x & Hx & Heq). apply String.eqb_eq in Heq. now subst.
  - intros H. exists k. split; [assumption|apply String.eqb_refl].
Qed.

Lemma str_in_not_In k l : str_in k l = false <-> ~ In k l.
Proof.
  rewrite <- str_in_In. destruct (str_in k l); split; intros H;
    try reflexivity; try discriminate; try (now intros ?).
  now exfalso.
Qed.

Lemma str_in_app k l1 l2 : str_in k (l1 ++ l2) = str_in k l1 || str_in k l2.
Proof. unfold str_in. apply existsb_app. Qed.

Lemma distinct_NoDup l : distinct l = true <-> List.NoDup l.
Proof.
  induction l as [|x l IH]; simpl.
  - split; [constructor|reflexivity].
  - rewrite andb_true_iff, negb_true_iff, str_in_not_In, IH. split.
    + intros [H1 H2]. now constructor.
    + intros H. inversion H; subst. now split.
Qed.

Lemma distinct_app l1 l2 :
  distinct (l1 ++ l2) = true ->
  distinct l1 = true /\ distinct l2 = true
  /\ forall k, In k l1 -> ~ In k l2.
Proof.
  rewrite !distinct_NoDup. intros H.
  apply List.NoDup_app_remove_l in H as H2.
  apply List.NoDup_app_remove_r in H as H1.
  repeat split; try assumption.
  intros k Hk1 Hk2. revert H Hk1 Hk2. clear.
  induction l1 as [|x l1 IH]; simpl; intros H Hk1 Hk2; [contradiction|].
  inversion H; subst. destruct Hk1 as [->|Hk1].
  - apply H2. apply in_or_app. now right.
  - now apply IH.
Qed.

Lemma dict_get_set_eq {A} k (v : A) d : dict_get k (dict_set k v d) = Some v.
Proof.
  induction d as [|[k' v'] d IH]; simpl.
  - now rewrite String.eqb_refl.
  - destruct (String.eqb k k') eqn:E; simpl; rewrite E; [reflexivity|exact IH].
Qed.

Lemma dict_get_set_ne {A} k k' (v : A) d :
  k' <> k -> dict_get k' (dict_set k v d) = dict_get k' d.
Proof.
  intros Hne. induction d as [|[k0 v0] d IH]; simpl.
  - apply String.eqb_neq in Hne. now rewrite Hne.
  - destruct (String.eqb k k0) eqn:E; simpl.
    + apply String.eqb_eq in E. subst k0.
      apply String.eqb_neq in Hne. now rewrite Hne.
    + now rewrite IH.
Qed.

Lemma dict_keys_set_in {A} k (v : A) d :
  str_in k (dict_keys d) = true -> dict_keys (dict_set k v d) = dict_keys d.
Proof.
  induction d as [|[k' v'] d IH]; simpl; intros H.
  - discriminate.
  - destruct (String.eqb k k') eqn:E; simpl; [reflexivity|].
    f_equal. now apply IH.
Qed.

Lemma dict_set_fresh {A} k (v : A) d :
  str_in k (dict_keys d) = false -> dict_set k v d = d ++ [(k, v)].
Proof.
  induction d as [|[k' v'] d IH]; simpl; intros H.
  - reflexivity.
  - apply orb_false_iff in H as [E H]. rewrite E. f_equal. now apply IH.
Qed.

Lemma dict_get_keys {A} k (d : dict A) :
  str_in k (dict_keys d) = true <-> exists v, dict_get k d = Some v.
Proof.
  induction d as [|[k' v'] d IH]; simpl.
  - split; [discriminate|intros [v H]; discriminate].
  - destruct (String.eqb k k'); simpl.
    + split; [eauto|reflexivity].
    + exact IH.
Qed.

Lemma dict_get_not_keys {A} k (d : dict A) :
  str_in k (dict_keys d) = false <-> dict_get k d = None.
Proof.
  induction d as [|[k' v'] d IH]; simpl.
  - split; reflexivity.
  - destruct (String.eqb k k'); simpl.
    + split; discriminate.
    + exact IH.
Qed.

Lemma dict_get_app {A} k (d1 d2 : dict A) :
  dict_get k (d1 ++ d2)
    = match dict_get k d1 with Some v => Some v | None => dict_get k d2 end.
Proof.
  induction d1 as [|[k' v'] d1 IH]; simpl; [reflexivity|].
  now destruct (String.eqb k k').
Qed.

Lemma dict_get_In {A} k (v : A) d : dict_get k d = Some v -> In (k, v) d.
Proof.
  induction d as [|[k' v'] d IH]; simpl; [discriminate|].
  destruct (String.eqb k k') eqn:E.
  - intros H. inversion H; subst. apply String.eqb_eq in E. subst. now left.
  - intros H. right. now apply IH.
Qed.

Lemma dict_get_combine_in {A} k names (vals : list A) v :
  dict_get k (combine names vals) = Some v -> In k names.
Proof.
  intros H. apply dict_get_In in H. now apply in_combine_l in H.
Qed.

(** Updating with pairs whose keys are distinct: a key of the pairs gets its
    pair's value, any other key keeps its own. *)
Lemma dict_get_update {A} k (d : dict A) pairs :
  distinct (dict_keys pairs) = true ->
  dict_get k (dict_update d pairs)
    = match dict_get k pairs with Some v => Some v | None => dict_get k d end.
Proof.
  unfold dict_update. revert d.
  induction pairs as [|[k' v'] pairs IH]; intros d Hd; simpl in *.
  - reflexivity.
  - apply andb_true_iff in Hd as [Hk' Hd]. apply negb_true_iff in Hk'.
    rewrite IH by assumption.
    destruct (String.eqb k k') eqn:E.
    + apply String.eqb_eq in E. subst k'.
      apply dict_get_not_keys in Hk'. rewrite Hk'. apply dict_get_set_eq.
    + destruct (dict_get k pairs); [reflexivity|].
      apply dict_get_set_ne. now apply String.eqb_neq.
Qed.

Lemma dict_keys_update {A} (d : dict A) pairs :
  (forall k, In k (dict_keys pairs) -> In k (dict_keys d)) ->
  dict_keys (dict_update d pairs) = dict_keys d.
Proof.
  unfold dict_update. revert d.
  induction pairs as [|[k v] pairs IH]; intros d Hin; simpl in *.
  - reflexivity.
  - assert (Hk : dict_keys (dict_set k v d) = dict_keys d).
    { apply dict_keys_set_in, str_in_In, Hin. now left. }
    rewrite IH; [exact Hk|].
    intros k' Hk'. rewrite Hk. apply Hin. now right.
Qed.

Lemma dict_keys_combine {A} names (vals : list A) k :
  In k (dict_keys (combine names vals)) -> In k names.
Proof.
  unfold dict_keys. intros H. apply in_map_iff in H as ([k' v] & <- & H).
  now apply in_combine_l in H.
Qed.

Lemma distinct_keys_combine {A} names (vals : list A) :
  distinct names = true -> distinct (dict_keys (combine names vals)) = true.
Proof.
  revert vals. induction names as [|n names IH]; intros vals H; simpl in *.
  - reflexivity.
  - destruct vals as [|v vals]; simpl; [reflexivity|].
    apply andb_true_iff in H as [Hn H]. apply andb_true_iff. split.
    + apply negb_true_iff in Hn. apply negb_true_iff.
      apply str_in_not_In. intros Hin. apply dict_keys_combine in Hin.
      apply str_in_not_In in Hn. contradiction.
    + now apply IH.
Qed.

Lemma list_prod_tag (pargs : list pyval) (tag : string) :
  list_prod pargs [tag] = map (fun v => (v, tag)) pargs.
Proof. induction pargs as [|v pargs IH]; simpl; [reflexivity|now rewrite IH]. Qed.

Lemma dict_get_combine_map {A B} (f : A -> B) k names (vals : list A) :
  dict_get k (combine names (map f vals))
    = option_map f (dict_get k (combine names vals)).
Proof.
  revert vals. induction names as [|n names IH]; intros vals; simpl; [reflexivity|].
  destruct vals as [|v vals]; simpl; [reflexivity|].
  destruct (String.eqb k n); [reflexivity|apply IH].
Qed.

(** The filter of [remaining_parg_names] keeps every name: a name is a
    string, and no string is an item of a dict. *)
Lemma remaining_parg_names_all names kwargs :
  remaining_parg_names names kwargs = names.
Proof.
  unfold remaining_parg_names. induction names as [|n names IH].
  - reflexivity.
  - cbn [List.filter in_items negb]. f_equal. exact IH.
Qed.

(** ** The static tables in terms of the signature *)

Lemma scan_fold_pargs ps : forall t0,
  t_pargs (fold_left scan_step ps t0)
    = t_pargs t0 ++ map p_name (List.filter positional_capable ps).
Proof.
  induction ps as [|p ps IH]; intros t0; cbn [fold_left List.filter map].
  - now rewrite app_nil_r.
  - rewrite IH. unfold scan_step, positional_capable.
    destruct (p_kind p); cbn [t_pargs map]; rewrite <- ?app_assoc; reflexivity.
Qed.

Lemma scan_fold_kwargs ps : forall t0,
  t_kwargs (fold_left scan_step ps t0)
    = t_kwargs t0 ++ map p_name (List.filter keyword_capable ps).
Proof.
  induction ps as [|p ps IH]; intros t0; cbn [fold_left List.filter map].
  - now rewrite app_nil_r.
  - rewrite IH. unfold scan_step, keyword_capable.
    destruct (p_kind p); cbn [t_kwargs map]; rewrite <- ?app_assoc; reflexivity.
Qed.

Lemma scan_fold_defaults ps : forall t0,
  distinct (dict_keys (t_defaults t0) ++ map p_name ps) = true ->
  t_defaults (fold_left scan_step ps t0)
    = t_defaults t0 ++ map default_item (List.filter named ps).
Proof.
  induction ps as [|p ps IH]; intros t0 Hd; cbn [fold_left List.filter map] in *.
  - now rewrite app_nil_r.
  - assert (Hfresh : str_in (p_name p) (dict_keys (t_defaults t0)) = false).
    { apply distinct_app in Hd as (_ & _ & Hd). apply str_in_not_In.
      intros Hin. apply (Hd _ Hin). now left. }
    assert (Hrest : distinct (dict_keys (t_defaults t0) ++ map p_name ps) = true).
    { apply distinct_NoDup. apply distinct_NoDup in Hd.
      now apply List.NoDup_remove_1 in Hd. }
    assert (Hnext : distinct ((dict_keys (t_defaults t0) ++ [p_name p]) ++ map p_name ps) = true).
    { now rewrite <- app_assoc. }
    assert (Hkeys : forall v, dict_keys (dict_set (p_name p) v (t_defaults t0))
                              = dict_keys (t_defaults t0) ++ [p_name p]).
    { intros v. rewrite dict_set_fresh by assumption.
      unfold dict_keys. now rewrite map_app. }
    unfold scan_step at 2. unfold named.
    destruct (p_kind p); cbn [map]; rewrite IH; cbn [t_defaults];
      rewrite ?Hkeys; try assumption;
      rewrite ?dict_set_fresh by assumption; rewrite <- ?app_assoc; reflexivity.
Qed.

Lemma scan_fold_star_kwargs_keep ps : forall t0 n,
  snd (t_stars t0) = Some n ->
  exists n', snd (t_stars (fold_left scan_step ps t0)) = Some n'.
Proof.
  induction ps as [|p ps IH]; intros t0 n H; cbn [fold_left].
  - eauto.
  - unfold scan_step at 2. destruct (p_kind p); eapply IH; cbn [t_stars snd]; eauto.
Qed.

Lemma scan_fold_star_kwargs ps : forall t0,
  existsb is_var_keyword ps = true ->
  exists n, snd (t_stars (fold_left scan_step ps t0)) = Some n.
Proof.
  induction ps as [|p ps IH]; intros t0 H; cbn [fold_left existsb] in *.
  - discriminate.
  - apply orb_true_iff in H as [H|H].
    + unfold is_var_keyword in H. unfold scan_step at 2.
      destruct (p_kind p); try discriminate.
      eapply scan_fold_star_kwargs_keep. reflexivity.
    + now apply IH.
Qed.

Lemma scan_fold_star_kwargs_none ps : forall t0,
  existsb is_var_keyword ps = false ->
  snd (t_stars (fold_left scan_step ps t0)) = snd (t_stars t0).
Proof.
  induction ps as [|p ps IH]; intros t0 H; cbn [fold_left existsb] in *.
  - reflexivity.
  - apply orb_false_iff in H as [Hp H]. rewrite IH by assumption.
    unfold is_var_keyword in Hp. unfold scan_step.
    destruct (p_kind p); try discriminate; reflexivity.
Qed.

(** The closure has a variadic-keyword name exactly when the signature
    declares such a parameter. *)
Lemma scan_star_kwargs c :
  if existsb is_var_keyword (c_parameters c)
  then exists star_name, snd (t_stars (scan (c_parameters c))) = Some star_name
  else snd (t_stars (scan (c_parameters c))) = None.
Proof.
  destruct (existsb is_var_keyword (c_parameters c)) eqn:E.
  - now apply scan_fold_star_kwargs.
  - unfold scan. now rewrite scan_fold_star_kwargs_none.
Qed.

Lemma scan_pargs c : t_pargs (scan (c_parameters c)) = positional_names c.
Proof. unfold scan. now rewrite scan_fold_pargs. Qed.

Lemma scan_kwargs c : t_kwargs (scan (c_parameters c)) = keyword_names c.
Proof. unfold scan. now rewrite scan_fold_kwargs. Qed.

Lemma scan_defaults c :
  well_formed c = true ->
  t_defaults (scan (c_parameters c))
    = map default_item (List.filter named (c_parameters c)).
Proof. intros H. unfold scan. now rewrite scan_fold_defaults. Qed.

Lemma scan_defaults_keys c :
  well_formed c = true ->
  dict_keys (t_defaults (scan (c_parameters c))) = named_names c.
Proof.
  intros H. rewrite scan_defaults by assumption.
  unfold dict_keys, named_names. rewrite map_map. reflexivity.
Qed.

Lemma NoDup_map_filter {A B} (f : A -> B) (P : A -> bool) l :
  List.NoDup (map f l) -> List.NoDup (map f (List.filter P l)).
Proof.
  induction l as [|x l IH]; cbn [map List.filter]; intros H.
  - constructor.
  - inversion H; subst. destruct (P x); cbn [map]; [|now apply IH].
    constructor; [|now apply IH].
    intros Hin. apply H2. apply in_map_iff in Hin as (y & Hy & Hin).
    apply filter_In in Hin as [Hin _]. apply in_map_iff. eauto.
Qed.

Lemma positional_names_distinct c :
  well_formed c = true -> distinct (positional_names c) = true.
Proof.
  unfold well_formed, positional_names. rewrite !distinct_NoDup.
  apply NoDup_map_filter.
Qed.

Lemma dict_get_default_items ps p :
  List.NoDup (map p_name ps) -> In p ps ->
  dict_get (p_name p) (map default_item ps) = Some (p_default p, "d").
Proof.
  induction ps as [|q ps IH]; cbn [map dict_get]; intros Hd Hin.
  - contradiction.
  - inversion Hd; subst. cbn [default_item fst]. destruct Hin as [->|Hin].
    + unfold default_item at 1. cbn. now rewrite String.eqb_refl.
    + unfold default_item at 1. cbn [dict_get].
      destruct (String.eqb (p_name p) (p_name q)) eqn:E.
      * apply String.eqb_eq in E. exfalso. apply H1. rewrite <- E.
        now apply in_map.
      * now apply IH.
Qed.

Lemma scan_defaults_get c p :
  well_formed c = true -> In p (c_parameters c) -> named p = true ->
  dict_get (p_name p) (t_defaults (scan (c_parameters c))) = Some (p_default p, "d").
Proof.
  intros Hwf Hin Hnamed. rewrite scan_defaults by assumption.
  apply dict_get_default_items.
  - apply NoDup_map_filter. now apply distinct_NoDup.
  - apply filter_In. now split.
Qed.

Lemma positional_names_named c k :
  In k (positional_names c) -> In k (named_names c).
Proof.
  unfold positional_names, named_names. rewrite !in_map_iff.
  intros (p & Hp & Hin). exists p. split; [assumption|].
  apply filter_In in Hin as [Hin Hk]. apply filter_In. split; [assumption|].
  unfold positional_capable in Hk. unfold named. now destruct (p_kind p).
Qed.

Lemma keyword_names_named c k :
  In k (keyword_names c) -> In k (named_names c).
Proof.
  unfold keyword_names, named_names. rewrite !in_map_iff.
  intros (p & Hp & Hin). exists p. split; [assumption|].
  apply filter_In in Hin as [Hin Hk]. apply filter_In. split; [assumption|].
  unfold keyword_capable in Hk. unfold named. now destruct (p_kind p).
Qed.


(** ** Keyword arguments: table and excess collection *)

Lemma classify_fold_table KN kwargs : forall T E name,
  distinct (dict_keys kwargs) = true ->
  dict_get name (fst (fold_left (classify_step KN) kwargs (T, E)))
    = if str_in name KN
      then match dict_get name kwargs with
           | Some v => Some (v, "k")
           | None => dict_get name T
           end
      else dict_get name T.
Proof.
  induction kwargs as [|[k v] kwargs IH]; intros T E name Hd;
    cbn [fold_left dict_keys map fst distinct dict_get] in *.
  - now destruct (str_in name KN).
  - apply andb_true_iff in Hd as [Hk Hd]. apply negb_true_iff in Hk.
    unfold classify_step at 2. cbn [fst snd].
    destruct (str_in k KN) eqn:HkKN; rewrite IH by assumption;
      destruct (String.eqb name k) eqn:E0.
    + apply String.eqb_eq in E0. subst k. rewrite HkKN.
      apply dict_get_not_keys in Hk. rewrite Hk. apply dict_get_set_eq.
    + apply String.eqb_neq in E0. now rewrite dict_get_set_ne.
    + apply String.eqb_eq in E0. subst k. now rewrite HkKN.
    + reflexivity.
Qed.


Lemma classify_fold_no_extra KN kwargs : forall T E,
  forallb (fun item => str_in (fst item) KN) kwargs = true ->
  snd (fold_left (classify_step KN) kwargs (T, E)) = E.
Proof.
  induction kwargs as [|[k v] kwargs IH]; intros T E H; cbn [fold_left forallb fst] in *.
  - reflexivity.
  - apply andb_true_iff in H as [Hk H].
    unfold classify_step at 2. cbn [fst snd]. rewrite Hk. now apply IH.
Qed.

Lemma classify_fold_keys KN kwargs : forall T E,
  (forall k, In k KN -> In k (dict_keys T)) ->
  dict_keys (fst (fold_left (classify_step KN) kwargs (T, E))) = dict_keys T.
Proof.
  induction kwargs as [|[k v] kwargs IH]; intros T E HKN; cbn [fold_left].
  - reflexivity.
  - unfold classify_step at 2. cbn [fst snd].
    destruct (str_in k KN) eqn:HkKN; [|now apply IH].
    assert (Hkeys : dict_keys (dict_set k (v, "k") T) = dict_keys T).
    { apply dict_keys_set_in, str_in_In, HKN, str_in_In, HkKN. }
    rewrite IH; [exact Hkeys|]. intros k' Hk'. rewrite Hkeys. now apply HKN.
Qed.

(** ** The per-call table of a well-formed signature *)

Section PerCall.

Variable c : callable.
Hypothesis Hwf : well_formed c = true.

Let t := scan (c_parameters c).

Lemma arg_table_keys pargs kwargs :
  dict_keys (arg_table t pargs kwargs) = named_names c.
Proof.
  unfold arg_table, classify. subst t.
  rewrite dict_keys_update.
  - rewrite classify_fold_keys; [now apply scan_defaults_keys|].
    intros k Hk. rewrite scan_kwargs in Hk. rewrite scan_defaults_keys by assumption.
    now apply keyword_names_named.
  - intros k Hk. apply dict_keys_combine in Hk.
    rewrite remaining_parg_names_all, scan_pargs in Hk.
    rewrite classify_fold_keys.
    + rewrite scan_defaults_keys by assumption. now apply positional_names_named.
    + intros k' Hk'. rewrite scan_kwargs in Hk'.
      rewrite scan_defaults_keys by assumption. now apply keyword_names_named.
Qed.

Lemma arg_table_get pargs kwargs name :
  distinct (dict_keys kwargs) = true ->
  dict_get name (arg_table t pargs kwargs)
    = match supplied_by_position c pargs name with
      | Some v => Some (v, "p")
      | None =>
          match supplied_by_name c kwargs name with
          | Some v => Some (v, "k")
          | None => dict_get name (t_defaults t)
          end
      end.
Proof.
  intros Hk. unfold arg_table, classify, supplied_by_position, supplied_by_name.
  subst t. rewrite remaining_parg_names_all, scan_pargs, scan_kwargs.
  rewrite dict_get_update
    by (apply distinct_keys_combine, positional_names_distinct, Hwf).
  rewrite list_prod_tag, dict_get_combine_map.
  destruct (dict_get name (combine (positional_names c) pargs)); cbn [option_map].
  - reflexivity.
  - rewrite classify_fold_table by assumption.
    destruct (str_in name (keyword_names c)); [|reflexivity].
    now destruct (dict_get name kwargs).
Qed.


End PerCall.

(** ** Live states hold the tables of the decorator *)

Lemma debug_calls_ok c cl s0 s :
  debug_calls c s0 = Ok cl s ->
  let t := scan (c_parameters c) in
  cl_callable cl = c
  /\ star_pargs_name cl = fst (t_stars t)
  /\ star_kwargs_name cl = snd (t_stars t)
  /\ tables_at c cl s
  /\ t_defaults t <> []
  /\ out s = out s0.
Proof.
  intros H t. rewrite debug_calls_run in H. fold t in H.
  destruct (t_defaults t) as [|item d] eqn:Hd; cbn [dict_keys map] in H;
    [discriminate|].
  inversion H; subst. unfold tables_at. fold t. rewrite Hd. cbn.
  repeat split; try discriminate.
  - apply lookup_fresh_0.
  - apply lookup_fresh_1.
  - apply lookup_fresh_2.
Qed.

Lemma wrapper_result_heap t cl stack pargs kwargs s :
  heap (final_state (wrapper_result t cl stack pargs kwargs s))
    = heap s ++ [OTable (arg_table t pargs kwargs); OKwargs (excess_kwargs t kwargs)].
Proof.
  unfold wrapper_result, finish.
  destruct (snd (star_pargs_section cl (excess_pargs t pargs kwargs))); [|reflexivity].
  destruct (star_kwargs_name cl);
    [destruct (map py_len (dict_keys (excess_kwargs t kwargs))) as [|x xs];
       [|destruct (snd (star_kwargs_section (fold_left Nat.max xs x)
                          (excess_kwargs t kwargs)))]|];
    try destruct (c_call (cl_callable cl) pargs kwargs); reflexivity.
Qed.

Lemma live_tables c cl s :
  live c cl s ->
  let t := scan (c_parameters c) in
  cl_callable cl = c
  /\ star_pargs_name cl = fst (t_stars t)
  /\ star_kwargs_name cl = snd (t_stars t)
  /\ tables_at c cl s
  /\ t_defaults t <> [].
Proof.
  intros H t. induction H as [s0 s H|s stack pargs kwargs H IH].
  - apply debug_calls_ok in H. tauto.
  - destruct IH as (Hc & Hsp & Hsk & (Hd & Hp & Hk) & Hne).
    repeat split; try assumption;
      rewrite (wrapper_run _ _ _ _ _ _ Hd Hp Hk), wrapper_result_heap;
      now apply lookup_old.
Qed.

(** On a live state the wrapper does what [wrapper_result] says. *)
Lemma live_wrapper c cl s stack pargs kwargs :
  live c cl s ->
  wrapper cl stack pargs kwargs s
    = wrapper_result (scan (c_parameters c)) cl stack pargs kwargs s.
Proof.
  intros H. apply live_tables in H as (_ & _ & _ & (Hd & Hp & Hk) & _).
  now apply wrapper_run.
Qed.

(** ** Printed lines and invocations of a report *)

Lemma invocations_app a b : invocations (a ++ b) = invocations a ++ invocations b.
Proof. unfold invocations. apply flat_map_app. Qed.

Lemma printed_app a b : printed (a ++ b) = printed a ++ printed b.
Proof. unfold printed. apply flat_map_app. Qed.

Lemma invocations_prints {A} (f : A -> string) (l : list A) :
  invocations (map (fun x => Print (f x)) l) = [].
Proof. induction l as [|x l IH]; [reflexivity|exact IH]. Qed.

Lemma printed_prints {A} (f : A -> string) (l : list A) :
  printed (map (fun x => Print (f x)) l) = map f l.
Proof. induction l as [|x l IH]; [reflexivity|cbn; now f_equal]. Qed.

Lemma invocations_star_pargs_section cl star_pargs :
  invocations (fst (star_pargs_section cl star_pargs)) = [].
Proof.
  unfold star_pargs_section.
  destruct (star_pargs_name cl); [destruct (str_tuple star_pargs)|]; reflexivity.
Qed.

Lemma invocations_star_kwargs_section pad extra :
  invocations (fst (star_kwargs_section pad extra)) = [].
Proof.
  induction extra as [|item extra IH]; cbn [star_kwargs_section]; [reflexivity|].
  destruct (star_kwarg_line pad item); [exact IH|reflexivity].
Qed.

(** Up to the variadic-keyword section a report only prints. *)
Lemma invocations_report_front cl stack table star_pargs o :
  invocations (o ++ report_head cl stack ++ report_named cl table
                 ++ fst (star_pargs_section cl star_pargs))
    = invocations o.
Proof.
  rewrite !invocations_app. unfold report_named.
  rewrite invocations_prints, invocations_star_pargs_section.
  cbn. now rewrite app_nil_r.
Qed.

Lemma invocations_heading line evs :
  invocations (Print line :: evs) = invocations evs.
Proof. reflexivity. Qed.

(** When the variadic-keyword section does not fail and the values of the
    variadic sections can be rendered, the wrapper makes the call with the
    arguments it received and hands back its outcome. *)
Lemma wrapper_result_transparent t cl stack pargs kwargs s :
  star_kwargs_name cl = None \/ excess_kwargs t kwargs <> [] ->
  sections_done t cl pargs kwargs ->
  let r := wrapper_result t cl stack pargs kwargs s in
  outcome_of r = c_call (cl_callable cl) pargs kwargs
  /\ invocations (out (final_state r)) = invocations (out s) ++ [(pargs, kwargs)].
Proof.
  intros H [Hp Hk]. unfold wrapper_result, finish. rewrite Hp.
  destruct (star_kwargs_name cl) as [star_name|].
  - destruct H as [H|H]; [discriminate|].
    destruct (excess_kwargs t kwargs) as [|item extra] eqn:He; [contradiction|].
    cbn [dict_keys map]. rewrite Hk by discriminate.
    destruct (c_call (cl_callable cl) pargs kwargs); cbn [outcome_of final_state out];
      (split; [reflexivity|]);
      rewrite invocations_app, invocations_report_front,
        invocations_heading, invocations_app, invocations_star_kwargs_section;
      reflexivity.
  - destruct (c_call (cl_callable cl) pargs kwargs); cbn [outcome_of final_state out];
      (split; [reflexivity|]);
      rewrite invocations_app, invocations_report_front; reflexivity.
Qed.

(** The maximum that [py_max] returns. *)
Lemma fold_left_max_list_max xs : forall x,
  fold_left Nat.max xs x = list_max (x :: xs).
Proof.
  induction xs as [|y ys IH]; intros x; cbn [fold_left].
  - cbn. lia.
  - rewrite IH. cbn. lia.
Qed.

(** ** Character counts and padding *)

Lemma py_len_append s1 s2 : py_len (s1 +:+ s2) = py_len s1 + py_len s2.
Proof.
  induction s1 as [|ch s1 IH]; [reflexivity|].
  simpl. rewrite IH. lia.
Qed.

Lemma py_len_spaces n : py_len (string_of_list_ascii (repeat " "%char n)) = n.
Proof. induction n as [|n IH]; [reflexivity|]. simpl. now rewrite IH. Qed.

Lemma ljust_len w s : py_len (ljust w s) = Nat.max w (py_len s).
Proof. unfold ljust. rewrite py_len_append, py_len_spaces. lia. Qed.

(** ** Rendering the variadic sections *)

Lemma mapM_repr_ok vs :
  forallb repr_ok vs = true -> exists texts, mapM repr vs = Some texts.
Proof.
  intros H. apply (mapM_is_Some_2 repr). apply List.Forall_forall.
  intros v Hv. rewrite forallb_forall in H. specialize (H v Hv).
  unfold repr_ok in H. unfold compose. destruct (repr v); [eauto|discriminate].
Qed.

Lemma str_tuple_mapM vs texts :
  mapM repr vs = Some texts ->
  str_tuple vs = Some match texts with
                      | [text] => "(" +:+ text +:+ ",)"
                      | _ => "(" +:+ String.concat ", " texts +:+ ")"
                      end.
Proof. intros H. unfold str_tuple. now rewrite H. Qed.

Lemma str_tuple_None vs : mapM repr vs = None -> str_tuple vs = None.
Proof. intros H. unfold str_tuple. now rewrite H. Qed.

Lemma forallb_skipn {A} (f : A -> bool) n l :
  forallb f l = true -> forallb f (skipn n l) = true.
Proof.
  rewrite !forallb_forall. intros H x Hx. apply H.
  rewrite <- (firstn_skipn n l). apply in_or_app. now right.
Qed.

Lemma star_pargs_section_ok cl vs :
  forallb repr_ok vs = true -> snd (star_pargs_section cl vs) = true.
Proof.
  intros H. unfold star_pargs_section. destruct (star_pargs_name cl); [|reflexivity].
  destruct (mapM_repr_ok vs H) as [texts Htexts].
  now rewrite (str_tuple_mapM _ _ Htexts).
Qed.

Lemma star_kwargs_section_ok pad extra :
  forallb (fun item => repr_ok (snd item)) extra = true ->
  snd (star_kwargs_section pad extra) = true
  /\ fst (star_kwargs_section pad extra)
     = map (fun item =>
              Print ("     " +:+ ljust pad (fst item) +:+ ": "
                       +:+ match repr (snd item) with
                           | Some text => text
                           | None => EmptyString
                           end)) extra.
Proof.
  induction extra as [|[k v] extra IH]; cbn [forallb star_kwargs_section map fst snd];
    intros H.
  - now split.
  - apply andb_true_iff in H as [Hv H]. destruct (IH H) as [IH1 IH2].
    unfold star_kwarg_line, repr_ok in *. destruct (repr v) as [text|]; [|discriminate].
    cbn [mbind option_bind fst snd]. split; [exact IH1|]. now rewrite IH2.
Qed.

Lemma star_kwargs_section_fails pad extra :
  existsb (fun item => negb (repr_ok (snd item))) extra = true ->
  snd (star_kwargs_section pad extra) = false.
Proof.
  induction extra as [|[k v] extra IH]; cbn [existsb star_kwargs_section snd];
    intros H; [discriminate|].
  unfold star_kwarg_line, repr_ok in *. destruct (repr v) as [text|]; cbn in *.
  - now apply IH.
  - reflexivity.
Qed.

Lemma In_dict_set {A} k (v : A) d x :
  In x (dict_set k v d) -> x = (k, v) \/ In x d.
Proof.
  induction d as [|[k' v'] d IH]; cbn [dict_set]; intros H.
  - destruct H as [<-|[]]. now left.
  - destruct (String.eqb k k') eqn:E; destruct H as [<-|H].
    + apply String.eqb_eq in E. subst. now left.
    + right. now right.
    + right. now left.
    + destruct (IH H) as [->|Hin]; [now left|right; now right].
Qed.

Lemma classify_fold_extra_In KN kwargs : forall T E x,
  In x (snd (fold_left (classify_step KN) kwargs (T, E))) ->
  In x E \/ In x kwargs.
Proof.
  induction kwargs as [|[k v] kwargs IH]; intros T E x H; cbn [fold_left] in H.
  - now left.
  - unfold classify_step at 2 in H. cbn [fst snd] in H.
    destruct (str_in k KN); apply IH in H as [H|H].
    + now left.
    + right. now right.
    + apply In_dict_set in H as [->|H]; [right; now left|now left].
    + right. now right.
Qed.

(** When [repr] raises on no argument, both variadic sections are printed to
    their end. *)
Lemma renders_sections_done t cl pargs kwargs :
  renders pargs kwargs = true -> sections_done t cl pargs kwargs.
Proof.
  unfold renders. intros H. apply andb_true_iff in H as [Hp Hk]. split.
  - apply star_pargs_section_ok. unfold excess_pargs. now apply forallb_skipn.
  - intros pad _. apply star_kwargs_section_ok.
    rewrite forallb_forall in *. intros item Hin. apply Hk.
    unfold excess_kwargs, classify in Hin.
    apply classify_fold_extra_In in Hin as [[]|Hin]. exact Hin.
Qed.

(** ** The printed lines of the named parameters *)

Lemma dict_nth {A} (d : dict A) : forall i k x,
  distinct (dict_keys d) = true ->
  nth_error (dict_keys d) i = Some k ->
  dict_get k d = Some x ->
  nth_error d i = Some (k, x).
Proof.
  induction d as [|[k0 x0] d IH]; intros i k x Hd Hk Hx; cbn in *.
  - destruct i; discriminate.
  - apply andb_true_iff in Hd as [Hk0 Hd]. apply negb_true_iff in Hk0.
    destruct i as [|i]; cbn in *.
    + inversion Hk; subst. rewrite String.eqb_refl in Hx. now inversion Hx.
    + destruct (String.eqb k k0) eqn:E.
      * apply String.eqb_eq in E. subst k0. exfalso.
        apply str_in_not_In in Hk0. apply Hk0. eapply nth_error_In, Hk.
      * now apply IH.
Qed.

Lemma live_pad_length c cl s :
  live c cl s ->
  pad_length cl = list_max (map py_len (dict_keys (t_defaults (scan (c_parameters c))))).
Proof.
  intros H. induction H as [s0 s H|s stack pargs kwargs H IH]; [|exact IH].
  rewrite debug_calls_run in H.
  destruct (map py_len (dict_keys (t_defaults (scan (c_parameters c))))) as [|x xs];
    [discriminate|].
  inversion H; subst. cbn [pad_length]. apply fold_left_max_list_max.
Qed.

Lemma named_names_distinct c :
  well_formed c = true -> distinct (named_names c) = true.
Proof.
  unfold well_formed, named_names. rewrite !distinct_NoDup.
  apply NoDup_map_filter.
Qed.

Lemma wrapper_result_front t cl stack pargs kwargs s :
  exists rest,
    printed (out (final_state (wrapper_result t cl stack pargs kwargs s)))
      = printed (out s)
          ++ [ EmptyString; title_line (cl_callable cl);
               caller_line (get_caller_info _FRAMES_TO_SKIP stack) ]
          ++ map (param_line (pad_length cl)) (arg_table t pargs kwargs)
          ++ rest.
Proof.
  assert (Hfront : forall evs,
    printed ((out s ++ report_head cl stack ++ report_named cl (arg_table t pargs kwargs)
                ++ fst (star_pargs_section cl (excess_pargs t pargs kwargs))) ++ evs)
    = printed (out s)
        ++ [ EmptyString; title_line (cl_callable cl);
             caller_line (get_caller_info _FRAMES_TO_SKIP stack) ]
        ++ map (param_line (pad_length cl)) (arg_table t pargs kwargs)
        ++ printed (fst (star_pargs_section cl (excess_pargs t pargs kwargs)) ++ evs)).
  { intros evs. rewrite <- !app_assoc. rewrite !printed_app.
    unfold report_named. rewrite printed_prints. reflexivity. }
  unfold wrapper_result, finish.
  destruct (snd (star_pargs_section cl (excess_pargs t pargs kwargs)));
    [destruct (star_kwargs_name cl);
       [destruct (map py_len (dict_keys (excess_kwargs t kwargs))) as [|x xs];
          [|destruct (snd (star_kwargs_section (fold_left Nat.max xs x)
                             (excess_kwargs t kwargs)))]|]|];
    try destruct (c_call (cl_callable cl) pargs kwargs);
    cbn [final_state out]; try (rewrite Hfront; eauto).
  all: rewrite <- (app_nil_r (out s ++ _)); rewrite Hfront; eauto.
Qed.

(** The report of a call starts with three lines and goes on with one line
    per named parameter, in declaration order, each made by [param_line] from
    what the call supplies for the parameter. *)
Lemma named_lines c cl s stack pargs kwargs :
  live c cl s ->
  well_formed c = true ->
  distinct (dict_keys kwargs) = true ->
  exists head lines rest,
    printed (out (final_state (wrapper cl stack pargs kwargs s)))
      = printed (out s) ++ head ++ lines ++ rest
    /\ length head = 3
    /\ length lines = length (named_names c)
    /\ forall i p,
         nth_error (List.filter named (c_parameters c)) i = Some p ->
         nth_error lines i
           = Some (param_line (list_max (map py_len (named_names c)))
                     (p_name p, reported c pargs kwargs p)).
Proof.
  intros Hlive Hwf Hkeys.
  rewrite (live_wrapper _ _ _ _ _ _ Hlive).
  pose proof (live_pad_length _ _ _ Hlive) as Hpad.
  rewrite scan_defaults_keys in Hpad by assumption.
  set (t := scan (c_parameters c)).
  destruct (wrapper_result_front t cl stack pargs kwargs s) as [rest Hrest].
  eexists. exists (map (param_line (pad_length cl)) (arg_table t pargs kwargs)), rest.
  split; [exact Hrest|]. split; [reflexivity|].
  assert (Hk : dict_keys (arg_table t pargs kwargs) = named_names c)
    by (subst t; now apply arg_table_keys).
  split.
  - rewrite length_map. rewrite <- Hk. unfold dict_keys. now rewrite length_map.
  - intros i p Hp. rewrite nth_error_map, Hpad.
    assert (Hin : In p (c_parameters c) /\ named p = true).
    { apply nth_error_In in Hp. now apply filter_In in Hp. }
    destruct Hin as [Hin Hnamed].
    erewrite dict_nth; [reflexivity| | |].
    + rewrite Hk. now apply named_names_distinct.
    + rewrite Hk. unfold named_names. rewrite nth_error_map, Hp. reflexivity.
    + subst t. rewrite arg_table_get by assumption. unfold reported.
      destruct (supplied_by_position c pargs (p_name p)); [reflexivity|].
      destruct (supplied_by_name c kwargs (p_name p)); [reflexivity|].
      now apply scan_defaults_get.
Qed.

(** The whole output of a call whose variadic sections are printed to their
    end and whose variadic-keyword section has something to print. *)
Lemma wrapper_result_done t cl stack pargs kwargs s :
  sections_done t cl pargs kwargs ->
  star_kwargs_name cl = None \/ excess_kwargs t kwargs <> [] ->
  out (final_state (wrapper_result t cl stack pargs kwargs s))
    = out s ++ report_head cl stack ++ report_named cl (arg_table t pargs kwargs)
        ++ fst (star_pargs_section cl (excess_pargs t pargs kwargs))
        ++ match star_kwargs_name cl with
           | Some star_name =>
               Print (" **" +:+ star_name +:+ ":")
               :: fst (star_kwargs_section
                         (list_max (map py_len (dict_keys (excess_kwargs t kwargs))))
                         (excess_kwargs t kwargs))
           | None => []
           end
        ++ [Invoke pargs kwargs]
  /\ outcome_of (wrapper_result t cl stack pargs kwargs s)
     = c_call (cl_callable cl) pargs kwargs.
Proof.
  intros [Hp Hk] H. unfold wrapper_result, finish. rewrite Hp.
  destruct (star_kwargs_name cl) as [star_name|].
  - destruct H as [H|H]; [discriminate|].
    destruct (excess_kwargs t kwargs) as [|item extra] eqn:He; [contradiction|].
    cbn [dict_keys map]. rewrite Hk by discriminate.
    rewrite fold_left_max_list_max.
    destruct (c_call (cl_callable cl) pargs kwargs); cbn [outcome_of final_state out];
      (split; [|reflexivity]); rewrite <- !app_assoc; reflexivity.
  - destruct (c_call (cl_callable cl) pargs kwargs); cbn [outcome_of final_state out];
      (split; [|reflexivity]); rewrite <- !app_assoc; reflexivity.
Qed.



(** * The properties *)

(** ** Caller locator *)

Lemma get_caller_info_loop_all_skipped skip i chain :
  forallb (fun fr => frame_in fr skip) chain = true ->
  get_caller_info_loop skip i chain = (EmptyString, 0%Z, EmptyString, true).
Proof.
  revert i. induction chain as [|fr rest IH]; intros i Hall; cbn in *.
  - reflexivity.
  - apply andb_true_iff in Hall as [Hfr Hrest]. rewrite Hfr. now apply IH.
Qed.

Lemma get_caller_info_loop_later skip i chain g :
  nearest_unskipped skip chain = Some g ->
  get_caller_info_loop skip (S i) chain = (filename g, lineno g, function g, true).
Proof.
  unfold nearest_unskipped. revert i.
  induction chain as [|fr rest IH]; intros i Hg; cbn in *.
  - discriminate.
  - destruct (frame_in fr skip); cbn in Hg.
    + now apply IH.
    + now inversion Hg.
Qed.

(** C6: the locator returns the nearest frame of the chain that is outside
    the skip list. The flag is true exactly when the immediate caller is in
    the skip list, and when it is not, the frame returned is the immediate
    caller itself. *)
Theorem get_caller_info_nearest skip stack fr rest g :
  skipn 2 stack = fr :: rest ->
  nearest_unskipped skip (fr :: rest) = Some g ->
  get_caller_info skip stack
    = (filename g, lineno g, function g, frame_in fr skip)
  /\ (frame_in fr skip = false -> g = fr).
Proof.
  intros Hchain Hg. unfold get_caller_info. rewrite Hchain.
  unfold nearest_unskipped in Hg. cbn in *.
  destruct (frame_in fr skip) eqn:Hfr; cbn in Hg.
  - split; [|discriminate].
    now apply get_caller_info_loop_later.
  - inversion Hg; subst. split; [reflexivity|trivial].
Qed.

(** C7: when every frame of the chain is in the skip list, an empty chain
    included, the locator returns an empty file name, line 0, an empty
    function name and the flag set; it is a total function and raises
    nothing. *)
Theorem get_caller_info_exhausted skip stack :
  forallb (fun fr => frame_in fr skip) (skipn 2 stack) = true ->
  get_caller_info skip stack = (EmptyString, 0%Z, EmptyString, true).
Proof.
  intros Hall. unfold get_caller_info.
  now apply get_caller_info_loop_all_skipped.
Qed.

(** ** The wrapper *)

(** Decorating a callable none of whose parameters is named raises
    [ValueError], in any state. *)
Lemma debug_calls_no_named c s :
  forallb (fun p => negb (named p)) (c_parameters c) = true ->
  exists s', debug_calls c s = Err ValueError s'.
Proof.
  intros H. rewrite debug_calls_run.
  assert (Hd : t_defaults (scan (c_parameters c)) = []).
  { unfold scan.
    assert (forall ps t0, forallb (fun p => negb (named p)) ps = true ->
              t_defaults (fold_left scan_step ps t0) = t_defaults t0) as Hgen.
    { induction ps as [|p ps IH]; intros t0 Hps; cbn [fold_left forallb] in *.
      - reflexivity.
      - apply andb_true_iff in Hps as [Hp Hps]. rewrite IH by assumption.
        unfold named in Hp. unfold scan_step.
        destruct (p_kind p); try discriminate; reflexivity. }
    now rewrite Hgen. }
  rewrite Hd. cbn. eauto.
Qed.

(** C4: when the callable declares a variadic-keyword parameter and every
    keyword argument of the call names a keyword-capable parameter, the
    wrapper raises [ValueError] while printing the report and the decorated
    callable is not invoked; when the positional arguments can be rendered,
    the last line printed is the variadic-keyword heading. *)
Theorem wrapper_raises_without_extra_keywords c cl s stack pargs kwargs :
  live c cl s ->
  existsb is_var_keyword (c_parameters c) = true ->
  forallb (fun item => str_in (fst item) (keyword_names c)) kwargs = true ->
  let r := wrapper cl stack pargs kwargs s in
  outcome_of r = Raises ValueError
  /\ invocations (out (final_state r)) = invocations (out s)
  /\ exists star_name,
       star_kwargs_name cl = Some star_name
       /\ (forallb repr_ok pargs = true ->
           exists lines,
             printed (out (final_state r))
               = printed (out s) ++ lines ++ [" **" +:+ star_name +:+ ":"]).
Proof.
  intros Hlive Hvar Hkw r. subst r.
  rewrite (live_wrapper _ _ _ _ _ _ Hlive).
  apply live_tables in Hlive as (_ & _ & Hsk & _ & _).
  destruct (scan_fold_star_kwargs (c_parameters c) (Tables [] [] [] (None, None)) Hvar)
    as [star_name Hname].
  fold (scan (c_parameters c)) in Hname. rewrite Hname in Hsk.
  set (t := scan (c_parameters c)).
  assert (Hextra : excess_kwargs t kwargs = []).
  { unfold excess_kwargs, classify. apply classify_fold_no_extra.
    subst t. now rewrite scan_kwargs. }
  unfold wrapper_result. rewrite Hsk, Hextra. cbn [dict_keys map].
  destruct (snd (star_pargs_section cl (excess_pargs t pargs kwargs))) eqn:Hdone;
    cbn [outcome_of final_state out]; (split; [reflexivity|]); split.
  - rewrite invocations_app, invocations_report_front. cbn. now rewrite app_nil_r.
  - exists star_name. split; [reflexivity|]. intros _.
    exists (printed (report_head cl stack
                     ++ report_named cl (arg_table t pargs kwargs)
                     ++ fst (star_pargs_section cl (excess_pargs t pargs kwargs)))).
    rewrite !printed_app, <- !app_assoc. reflexivity.
  - apply invocations_report_front.
  - exists star_name. split; [reflexivity|]. intros Hok. exfalso.
    rewrite star_pargs_section_ok in Hdone; [discriminate|].
    unfold excess_pargs. now apply forallb_skipn.
Qed.

(** C5: in the report of a valid call, the three opening lines are followed
    by one line per named parameter, in declaration order: the letter p and
    the argument for a parameter supplied by position, the letter k and the
    argument for one supplied by name, the letter d and the declared default
    for one not supplied, the name padded to the longest name and the value
    rendered by [safe_repr]. *)
Theorem report_categories c cl s stack pargs kwargs :
  live c cl s ->
  well_formed c = true ->
  valid_call c pargs kwargs = true ->
  exists head lines rest,
    printed (out (final_state (wrapper cl stack pargs kwargs s)))
      = printed (out s) ++ head ++ lines ++ rest
    /\ length head = 3
    /\ length lines = length (named_names c)
    /\ forall i p,
         nth_error (List.filter named (c_parameters c)) i = Some p ->
         let width := list_max (map py_len (named_names c)) in
         let field :=
           p_name p +:+ string_of_list_ascii (repeat " "%char (width - py_len (p_name p))) in
         (forall v, supplied_by_position c pargs (p_name p) = Some v ->
                    nth_error lines i = Some ("(p) " +:+ field +:+ ": " +:+ safe_repr v))
         /\ (forall v, supplied_by_name c kwargs (p_name p) = Some v ->
                       nth_error lines i = Some ("(k) " +:+ field +:+ ": " +:+ safe_repr v))
         /\ (supplied_by_position c pargs (p_name p) = None ->
             supplied_by_name c kwargs (p_name p) = None ->
             nth_error lines i
               = Some ("(d) " +:+ field +:+ ": " +:+ safe_repr (p_default p))).
Proof.
  intros Hlive Hwf Hvalid.
  unfold valid_call in Hvalid.
  apply andb_true_iff in Hvalid as [Hvalid Hbind].
  apply andb_true_iff in Hvalid as [Hvalid _].
  apply andb_true_iff in Hvalid as [Hkeys _].
  destruct (named_lines c cl s stack pargs kwargs Hlive Hwf Hkeys)
    as (head & lines & rest & Hout & Hhead & Hlen & Hline).
  exists head, lines, rest. repeat (split; [assumption|]).
  intros i p Hp width field. rewrite (Hline i p Hp).
  assert (Hin : In p (c_parameters c) /\ named p = true).
  { apply nth_error_In in Hp. now apply filter_In in Hp. }
  destruct Hin as [Hin Hnamed].
  rewrite forallb_forall in Hbind. specialize (Hbind p Hin).
  rewrite Hnamed in Hbind. cbn [negb orb] in Hbind.
  unfold reported.
  destruct (supplied_by_position c pargs (p_name p)) as [vp|];
    destruct (supplied_by_name c kwargs (p_name p)) as [vk|];
    try discriminate; repeat split; intros; try discriminate;
    match goal with
    | H : Some _ = Some _ |- _ => inversion H; subst; reflexivity
    | _ => reflexivity
    end.
Qed.

(** C8: for [def f(a, /, b, *, c, d='x')] called as [f(1, 2, c=3)], the
    report is the blank line, the title, the caller line and then the four
    parameter lines [(p) a], [(p) b], [(k) c], [(d) d] in that order, each
    followed by the rendering of its value, before the call is made. *)
Theorem example_report body stack :
  let r := decorate_and_call (f_example body) stack
             [PyInt 1; PyInt 2] [("c", PyInt 3)] in
  printed (out (final_state r))
    = [ EmptyString;
        title_line (f_example body);
        caller_line (get_caller_info _FRAMES_TO_SKIP stack);
        "(p) a: " +:+ safe_repr (PyInt 1);
        "(p) b: " +:+ safe_repr (PyInt 2);
        "(k) c: " +:+ safe_repr (PyInt 3);
        "(d) d: " +:+ safe_repr (PyStr "x") ]
  /\ invocations (out (final_state r)) = [([PyInt 1; PyInt 2], [("c", PyInt 3)])].
Proof.
  cbv zeta. unfold decorate_and_call.
  erewrite bind_ok by (rewrite debug_calls_run; reflexivity).
  erewrite wrapper_run with (t := scan (c_parameters (f_example body)))
    by reflexivity.
  unfold wrapper_result, finish. cbn.
  destruct (body _ _); split; reflexivity.
Qed.

(** C9: in every state the wrapper can be called in, the closure's dict and
    lists are the ones the decorator built from the signature; a call leaves
    every object that existed before it untouched and only adds its own two
    dicts, so the static tables are the same before and after. *)
Theorem static_tables_never_mutated c cl s stack pargs kwargs :
  live c cl s ->
  let s' := final_state (wrapper cl stack pargs kwargs s) in
  tables_at c cl s
  /\ (exists table extra, heap s' = heap s ++ [OTable table; OKwargs extra])
  /\ heap s' !! param_to_default cl = heap s !! param_to_default cl
  /\ heap s' !! parg_names cl = heap s !! parg_names cl
  /\ heap s' !! kwarg_names cl = heap s !! kwarg_names cl
  /\ tables_at c cl s'.
Proof.
  intros Hlive s'.
  pose proof (live_tables _ _ _ (live_called _ _ _ stack pargs kwargs Hlive))
    as (_ & _ & _ & Hafter & _).
  pose proof (live_tables _ _ _ Hlive) as (_ & _ & _ & Hbefore & _).
  fold s' in Hafter.
  split; [exact Hbefore|]. split.
  - subst s'. rewrite (live_wrapper _ _ _ _ _ _ Hlive), wrapper_result_heap. eauto.
  - destruct Hbefore as (Hd & Hp & Hk), Hafter as (Hd' & Hp' & Hk').
    rewrite Hd, Hp, Hk, Hd', Hp', Hk'. repeat split; assumption.
Qed.


(** * Further properties of the locator, the decorator and the wrapper *)

(** ** Caller locator *)

Lemma get_caller_info_loop_flag skip i chain :
  snd (get_caller_info_loop skip (S i) chain) = true.
Proof.
  revert i. induction chain as [|fr rest IH]; intros i; cbn.
  - reflexivity.
  - destruct (frame_in fr skip); [apply IH|reflexivity].
Qed.

Lemma get_caller_info_loop_cases skip chain : forall i,
  get_caller_info_loop skip i chain = (EmptyString, 0%Z, EmptyString, true)
  \/ exists g flag,
       In g chain /\ frame_in g skip = false
       /\ get_caller_info_loop skip i chain = (filename g, lineno g, function g, flag).
Proof.
  induction chain as [|fr rest IH]; intros i; cbn.
  - now left.
  - destruct (frame_in fr skip) eqn:Hfr.
    + destruct (IH (S i)) as [H|(g & flag & Hin & Hg & H)]; [now left|].
      right. exists g, flag. repeat split; try assumption. now right.
    + right. exists fr, (Nat.ltb 0 i). repeat split; try assumption. now left.
Qed.

Lemma get_caller_info_loop_app skip chain more g : forall i,
  nearest_unskipped skip chain = Some g ->
  get_caller_info_loop skip i (chain ++ more) = get_caller_info_loop skip i chain.
Proof.
  unfold nearest_unskipped.
  induction chain as [|fr rest IH]; intros i Hg; cbn in *.
  - discriminate.
  - destruct (frame_in fr skip); cbn in Hg; [now apply IH|reflexivity].
Qed.

(** X1: the flag is false exactly when the chain has a first frame and that
    frame is outside the skip list; the result is then that frame. *)
Theorem get_caller_info_flag_false_iff skip stack :
  snd (get_caller_info skip stack) = false
  <-> exists fr rest,
        skipn 2 stack = fr :: rest /\ frame_in fr skip = false
        /\ get_caller_info skip stack = (filename fr, lineno fr, function fr, false).
Proof.
  unfold get_caller_info. destruct (skipn 2 stack) as [|fr rest]; cbn.
  - split; [discriminate|]. intros (fr & rest & H & _). discriminate.
  - destruct (frame_in fr skip) eqn:Hfr.
    + rewrite get_caller_info_loop_flag. split; [discriminate|].
      intros (fr' & rest' & H & Hfr' & _). inversion H; subst. congruence.
    + split; [|reflexivity]. intros _. exists fr, rest. now repeat split.
Qed.

(** X2: frames further out than the nearest frame outside the skip list
    have no influence on the result. *)
Theorem get_caller_info_ignores_outer_frames skip a b chain more g :
  nearest_unskipped skip chain = Some g ->
  get_caller_info skip (a :: b :: chain ++ more)
    = get_caller_info skip (a :: b :: chain).
Proof.
  intros Hg. unfold get_caller_info. cbn [skipn].
  now apply get_caller_info_loop_app with (g := g).
Qed.

(** X3: the locator never reports a frame of the skip list: its result is
    the sentinel, or the file, line and function of a frame of the chain that
    is outside the skip list. *)
Theorem get_caller_info_outside_skip_list skip stack :
  get_caller_info skip stack = (EmptyString, 0%Z, EmptyString, true)
  \/ exists g flag,
       In g (skipn 2 stack) /\ frame_in g skip = false
       /\ get_caller_info skip stack = (filename g, lineno g, function g, flag).
Proof. unfold get_caller_info. apply get_caller_info_loop_cases. Qed.

(** ** The decorator *)

Lemma dict_set_not_nil {A} k (v : A) d : dict_set k v d <> [].
Proof.
  destruct d as [|[k' v'] d]; cbn; [discriminate|].
  destruct (String.eqb k k'); discriminate.
Qed.

Lemma scan_step_defaults_keep t p :
  t_defaults t <> [] -> t_defaults (scan_step t p) <> [].
Proof.
  intros H. unfold scan_step.
  destruct (p_kind p); cbn [t_defaults]; try assumption; apply dict_set_not_nil.
Qed.

Lemma scan_fold_defaults_keep ps : forall t0,
  t_defaults t0 <> [] -> t_defaults (fold_left scan_step ps t0) <> [].
Proof.
  induction ps as [|p ps IH]; intros t0 H; cbn [fold_left]; [assumption|].
  now apply IH, scan_step_defaults_keep.
Qed.

Lemma scan_fold_defaults_nil ps : forall t0,
  t_defaults t0 = [] ->
  (t_defaults (fold_left scan_step ps t0) = [] <-> existsb named ps = false).
Proof.
  induction ps as [|p ps IH]; intros t0 H0; cbn [fold_left existsb].
  - now split.
  - destruct (named p) eqn:Hp; cbn [orb].
    + split; [|discriminate]. intros H. exfalso.
      revert H. apply scan_fold_defaults_keep.
      unfold named in Hp. unfold scan_step.
      destruct (p_kind p); try discriminate; cbn [t_defaults]; apply dict_set_not_nil.
    + apply IH. unfold named in Hp. unfold scan_step.
      destruct (p_kind p); try discriminate; exact H0.
Qed.

(** X4: decoration raises [ValueError] exactly when no parameter is named
    and otherwise returns a closure of the callable; either way it prints
    nothing, calls nothing, leaves the objects of the heap as they are and
    allocates three. *)
Theorem debug_calls_succeeds_iff_named c s :
  match debug_calls c s with
  | Ok cl _ => existsb named (c_parameters c) = true /\ cl_callable cl = c
  | Err e _ => e = ValueError /\ existsb named (c_parameters c) = false
  end
  /\ out (final_state (debug_calls c s)) = out s
  /\ exists objs,
       heap (final_state (debug_calls c s)) = heap s ++ objs /\ length objs = 3.
Proof.
  rewrite debug_calls_run.
  pose proof (scan_fold_defaults_nil (c_parameters c) (Tables [] [] [] (None, None)) eq_refl)
    as Hnil.
  fold (scan (c_parameters c)) in Hnil.
  destruct (t_defaults (scan (c_parameters c))) as [|item d] eqn:Hd;
    cbn [dict_keys map final_state out heap].
  - split; [split; [reflexivity|now apply Hnil]|]. split; [reflexivity|]. eauto.
  - split; [split; [|reflexivity]|].
    + destruct (existsb named (c_parameters c)); [reflexivity|].
      destruct Hnil as [_ Hnil]. discriminate (Hnil eq_refl).
    + split; [reflexivity|]. eauto.
Qed.

(** X5: for a signature with distinct names, the decorator's dict holds
    every named parameter with its declared default and letter d, its two
    lists hold the positional-capable and the keyword-capable names, all in
    declaration order, at the locations the closure keeps. *)
Theorem debug_calls_tables c cl s s' :
  well_formed c = true ->
  debug_calls c s = Ok cl s' ->
  heap s' = heap s ++ [ OTable (map default_item (List.filter named (c_parameters c)));
                        ONames (positional_names c);
                        ONames (keyword_names c) ]
  /\ param_to_default cl = length (heap s)
  /\ parg_names cl = S (length (heap s))
  /\ kwarg_names cl = S (S (length (heap s))).
Proof.
  intros Hwf H. rewrite debug_calls_run in H.
  rewrite scan_pargs, scan_kwargs, scan_defaults in H by assumption.
  destruct (map py_len (dict_keys (map default_item (List.filter named (c_parameters c)))));
    [discriminate|].
  inversion H; subst. cbn. repeat split.
Qed.

(** X6: the alignment width is the number of characters of the longest
    named parameter name, and in the report of a call every parameter line
    is a text of that width plus four characters, then a colon, a space and
    the rendered value: the colons of the parameter lines are in one
    column. *)
Theorem pad_length_fits c cl s stack pargs kwargs :
  live c cl s ->
  well_formed c = true ->
  distinct (dict_keys kwargs) = true ->
  pad_length cl = list_max (map py_len (named_names c))
  /\ exists head lines rest,
       printed (out (final_state (wrapper cl stack pargs kwargs s)))
         = printed (out s) ++ head ++ lines ++ rest
       /\ length head = 3
       /\ length lines = length (named_names c)
       /\ forall line, In line lines ->
            exists before v,
              line = before +:+ ": " +:+ safe_repr v
              /\ py_len before = 4 + list_max (map py_len (named_names c)).
Proof.
  intros Hlive Hwf Hkeys. split.
  { rewrite (live_pad_length _ _ _ Hlive). now rewrite scan_defaults_keys. }
  destruct (named_lines c cl s stack pargs kwargs Hlive Hwf Hkeys)
    as (head & lines & rest & Hout & Hhead & Hlen & Hline).
  exists head, lines, rest. repeat (split; [assumption|]).
  intros line Hin. apply In_nth_error in Hin as [i Hi].
  assert (Hi' : i < length (List.filter named (c_parameters c))).
  { assert (Hlt : i < length lines) by (apply nth_error_Some; now rewrite Hi).
    rewrite Hlen in Hlt. unfold named_names in Hlt. now rewrite length_map in Hlt. }
  destruct (nth_error (List.filter named (c_parameters c)) i) as [p|] eqn:Hp;
    [|apply nth_error_None in Hp; lia].
  rewrite (Hline i p Hp) in Hi. inversion Hi; subst line. clear Hi.
  assert (Hnamed : In (p_name p) (named_names c)).
  { apply nth_error_In in Hp. unfold named_names. now apply in_map. }
  assert (Hle : py_len (p_name p) <= list_max (map py_len (named_names c))).
  { pose proof (proj1 (list_max_le (map py_len (named_names c))
                         (list_max (map py_len (named_names c)))) (Nat.le_refl _)) as Hall.
    rewrite List.Forall_forall in Hall. apply Hall. now apply in_map. }
  unfold param_line, reported.
  destruct (supplied_by_position c pargs (p_name p)) as [vp|];
    [|destruct (supplied_by_name c kwargs (p_name p)) as [vk|]].
  - exists ("(p) " +:+ ljust (list_max (map py_len (named_names c))) (p_name p)), vp.
    split; [reflexivity|]. rewrite py_len_append, ljust_len.
    change (py_len "(p) ") with 4. lia.
  - exists ("(k) " +:+ ljust (list_max (map py_len (named_names c))) (p_name p)), vk.
    split; [reflexivity|]. rewrite py_len_append, ljust_len.
    change (py_len "(k) ") with 4. lia.
  - exists ("(d) " +:+ ljust (list_max (map py_len (named_names c))) (p_name p)),
           (p_default p).
    split; [reflexivity|]. rewrite py_len_append, ljust_len.
    change (py_len "(d) ") with 4. lia.
Qed.

Lemma scan_fold_stars ps : forall t0,
  fst (t_stars (fold_left scan_step ps t0))
    = match last (map p_name (List.filter is_var_positional ps)) with
      | Some star_name => Some star_name
      | None => fst (t_stars t0)
      end
  /\ snd (t_stars (fold_left scan_step ps t0))
    = match last (map p_name (List.filter is_var_keyword ps)) with
      | Some star_name => Some star_name
      | None => snd (t_stars t0)
      end.
Proof.
  induction ps as [|p ps IH]; intros t0; cbn [fold_left List.filter map].
  - now split.
  - destruct (IH (scan_step t0 p)) as [IH1 IH2]. rewrite IH1, IH2.
    unfold scan_step, is_var_positional, is_var_keyword.
    destruct (p_kind p); cbn [t_stars fst snd map]; rewrite ?last_cons;
      split; try reflexivity;
      match goal with |- context [last ?l] => now destruct (last l) end.
Qed.

(** X7: the closure's variadic names are the names of the signature's
    variadic-positional and variadic-keyword parameters (of the last one,
    were there several), and are absent when the signature has none. *)
Theorem debug_calls_star_names c cl s s' :
  debug_calls c s = Ok cl s' ->
  star_pargs_name cl = last (map p_name (List.filter is_var_positional (c_parameters c)))
  /\ star_kwargs_name cl = last (map p_name (List.filter is_var_keyword (c_parameters c))).
Proof.
  intros H. rewrite debug_calls_run in H.
  destruct (map py_len (dict_keys (t_defaults (scan (c_parameters c)))));
    [discriminate|].
  inversion H; subst. cbn [star_pargs_name star_kwargs_name].
  destruct (scan_fold_stars (c_parameters c) (Tables [] [] [] (None, None))) as [H1 H2].
  fold (scan (c_parameters c)) in H1, H2. rewrite H1, H2. cbn [t_stars fst snd].
  split; match goal with |- context [last ?l] => now destruct (last l) end.
Qed.

(** ** The wrapper *)

Lemma classify_fold_extra_nonempty KN kwargs : forall T E,
  E <> [] \/ existsb (fun item => negb (str_in (fst item) KN)) kwargs = true ->
  snd (fold_left (classify_step KN) kwargs (T, E)) <> [].
Proof.
  induction kwargs as [|[k v] kwargs IH]; intros T E H; cbn [fold_left existsb fst] in *.
  - destruct H as [H|H]; [assumption|discriminate].
  - unfold classify_step at 2. cbn [fst snd].
    destruct (str_in k KN); cbn [negb orb] in H; apply IH.
    + destruct H as [H|H]; [now left|now right].
    + left. apply dict_set_not_nil.
Qed.

Lemma classify_fold_extra_filter KN kwargs : forall T E,
  distinct (dict_keys E ++ dict_keys kwargs) = true ->
  snd (fold_left (classify_step KN) kwargs (T, E))
    = E ++ List.filter (fun item => negb (str_in (fst item) KN)) kwargs.
Proof.
  induction kwargs as [|[k v] kwargs IH]; intros T E Hd;
    cbn [fold_left List.filter dict_keys map fst] in *.
  - now rewrite app_nil_r.
  - unfold classify_step at 2. cbn [fst snd].
    destruct (str_in k KN); cbn [negb].
    + apply IH. apply distinct_NoDup. apply distinct_NoDup in Hd.
      now apply List.NoDup_remove_1 in Hd.
    + assert (Hfresh : str_in k (dict_keys E) = false).
      { apply distinct_app in Hd as (_ & _ & Hd). apply str_in_not_In.
        intros Hin. apply (Hd _ Hin). now left. }
      rewrite dict_set_fresh by assumption. rewrite IH.
      * now rewrite <- app_assoc.
      * unfold dict_keys. rewrite map_app. cbn [map fst].
        now rewrite <- app_assoc.
Qed.

Lemma prints_only evs : invocations evs = [] -> map Print (printed evs) = evs.
Proof.
  induction evs as [|[line|pargs kwargs] evs IH]; cbn; intros H.
  - reflexivity.
  - f_equal. now apply IH.
  - discriminate.
Qed.

(** X8: when [repr] raises on no argument of the call and either the
    signature has no variadic-keyword parameter or the call has a keyword
    that names no keyword-capable parameter, the wrapper prints its whole
    report, then calls the callable once with the arguments it received, and
    its outcome is the callable's. *)
Theorem wrapper_transparent c cl s stack pargs kwargs :
  live c cl s ->
  renders pargs kwargs = true ->
  existsb is_var_keyword (c_parameters c) = false
  \/ existsb (fun item => negb (str_in (fst item) (keyword_names c))) kwargs = true ->
  let r := wrapper cl stack pargs kwargs s in
  outcome_of r = c_call c pargs kwargs
  /\ invocations (out (final_state r)) = invocations (out s) ++ [(pargs, kwargs)]
  /\ exists lines,
       out (final_state r) = out s ++ map Print lines ++ [Invoke pargs kwargs].
Proof.
  intros Hlive Hrenders Hcase r. subst r.
  rewrite (live_wrapper _ _ _ _ _ _ Hlive).
  apply live_tables in Hlive as (Hc & _ & Hsk & _ & _).
  set (t := scan (c_parameters c)).
  assert (Hgo : star_kwargs_name cl = None \/ excess_kwargs t kwargs <> []).
  { destruct Hcase as [Hno|Hextra].
    - left. rewrite Hsk. pose proof (scan_star_kwargs c) as H.
      now rewrite Hno in H.
    - right. unfold excess_kwargs, classify. apply classify_fold_extra_nonempty.
      right. subst t. now rewrite scan_kwargs. }
  pose proof (renders_sections_done t cl pargs kwargs Hrenders) as Hdone.
  destruct (wrapper_result_transparent t cl stack pargs kwargs s Hgo Hdone) as [Ho Hinv].
  rewrite Hc in Ho. split; [exact Ho|]. split; [exact Hinv|].
  destruct (wrapper_result_done t cl stack pargs kwargs s Hdone Hgo) as [Hout _].
  rewrite Hout.
  set (evs := report_head cl stack ++ report_named cl (arg_table t pargs kwargs)
               ++ fst (star_pargs_section cl (excess_pargs t pargs kwargs))
               ++ match star_kwargs_name cl with
                  | Some star_name =>
                      Print (" **" +:+ star_name +:+ ":")
                      :: fst (star_kwargs_section
                                (list_max (map py_len (dict_keys (excess_kwargs t kwargs))))
                                (excess_kwargs t kwargs))
                  | None => []
                  end).
  exists (printed evs). rewrite prints_only.
  - subst evs. rewrite <- !app_assoc. reflexivity.
  - subst evs. unfold report_named.
    rewrite !invocations_app, invocations_prints, invocations_star_pargs_section.
    destruct (star_kwargs_name cl); [|reflexivity].
    rewrite invocations_heading. apply invocations_star_kwargs_section.
Qed.

(** X9: whatever the arguments, valid for the callable or not, the report
    of a call has, after its three opening lines, one line per named
    parameter in declaration order, and each of these lines is an opening
    parenthesis, one of the letters p, k and d, a closing parenthesis and a
    space, the padded name, a colon and a rendered value. *)
Theorem report_lists_every_named_parameter c cl s stack pargs kwargs :
  live c cl s ->
  well_formed c = true ->
  distinct (dict_keys kwargs) = true ->
  exists head lines rest,
    printed (out (final_state (wrapper cl stack pargs kwargs s)))
      = printed (out s) ++ head ++ lines ++ rest
    /\ length head = 3
    /\ length lines = length (named_names c)
    /\ forall i p,
         nth_error (List.filter named (c_parameters c)) i = Some p ->
         let width := list_max (map py_len (named_names c)) in
         let field :=
           p_name p +:+ string_of_list_ascii (repeat " "%char (width - py_len (p_name p))) in
         exists letter v,
           (letter = "p" \/ letter = "k" \/ letter = "d")
           /\ nth_error lines i
              = Some ("(" +:+ letter +:+ ") " +:+ field +:+ ": " +:+ safe_repr v).
Proof.
  intros Hlive Hwf Hkeys.
  destruct (named_lines c cl s stack pargs kwargs Hlive Hwf Hkeys)
    as (head & lines & rest & Hout & Hhead & Hlen & Hline).
  exists head, lines, rest. repeat (split; [assumption|]).
  intros i p Hp width field. rewrite (Hline i p Hp). unfold reported.
  destruct (supplied_by_position c pargs (p_name p)) as [vp|];
    [|destruct (supplied_by_name c kwargs (p_name p)) as [vk|]];
    eexists; eexists; (split; [|reflexivity]); auto.
Qed.

(** X10: a positional argument that falls on a named parameter is printed
    on that parameter's line with letter p, whatever the keyword arguments
    of the call are. *)
Theorem positional_argument_overrides_keyword c cl s stack pargs kwargs i p v :
  live c cl s ->
  well_formed c = true ->
  distinct (dict_keys kwargs) = true ->
  nth_error (List.filter named (c_parameters c)) i = Some p ->
  supplied_by_position c pargs (p_name p) = Some v ->
  exists head lines rest,
    printed (out (final_state (wrapper cl stack pargs kwargs s)))
      = printed (out s) ++ head ++ lines ++ rest
    /\ length head = 3
    /\ nth_error lines i
       = Some ("(p) "
               +:+ (p_name p
                    +:+ string_of_list_ascii
                          (repeat " "%char
                             (list_max (map py_len (named_names c)) - py_len (p_name p))))
               +:+ ": " +:+ safe_repr v).
Proof.
  intros Hlive Hwf Hkeys Hp Hpos.
  destruct (named_lines c cl s stack pargs kwargs Hlive Hwf Hkeys)
    as (head & lines & rest & Hout & Hhead & Hlen & Hline).
  exists head, lines, rest. repeat (split; [assumption|]).
  rewrite (Hline i p Hp). unfold reported. now rewrite Hpos.
Qed.

(** X11: the excess-keyword dict of a call holds exactly the keyword
    arguments whose names are not keyword-capable, in the order of the
    call. *)
Theorem excess_keywords_in_call_order c cl s stack pargs kwargs :
  live c cl s ->
  distinct (dict_keys kwargs) = true ->
  let r := wrapper cl stack pargs kwargs s in
  heap (final_state r) !! S (length (heap s))
    = Some (OKwargs (List.filter
                       (fun item => negb (str_in (fst item) (keyword_names c)))
                       kwargs)).
Proof.
  intros Hlive Hkeys r. subst r.
  rewrite (live_wrapper _ _ _ _ _ _ Hlive), wrapper_result_heap.
  rewrite lookup_fresh_1. unfold excess_kwargs, classify.
  rewrite classify_fold_extra_filter by exact Hkeys.
  now rewrite scan_kwargs.
Qed.

Lemma wrapper_result_positional t cl stack pargs kwargs s :
  exists rest,
    printed (out (final_state (wrapper_result t cl stack pargs kwargs s)))
      = printed (out s) ++ printed (report_head cl stack)
          ++ printed (report_named cl (arg_table t pargs kwargs))
          ++ printed (fst (star_pargs_section cl (excess_pargs t pargs kwargs)))
          ++ rest.
Proof.
  assert (Hfront : forall evs,
    printed ((out s ++ report_head cl stack ++ report_named cl (arg_table t pargs kwargs)
                ++ fst (star_pargs_section cl (excess_pargs t pargs kwargs))) ++ evs)
    = printed (out s) ++ printed (report_head cl stack)
        ++ printed (report_named cl (arg_table t pargs kwargs))
        ++ printed (fst (star_pargs_section cl (excess_pargs t pargs kwargs)))
        ++ printed evs).
  { intros evs. rewrite !printed_app, <- !app_assoc. reflexivity. }
  unfold wrapper_result, finish.
  destruct (snd (star_pargs_section cl (excess_pargs t pargs kwargs)));
    [destruct (star_kwargs_name cl);
       [destruct (map py_len (dict_keys (excess_kwargs t kwargs))) as [|x xs];
          [|destruct (snd (star_kwargs_section (fold_left Nat.max xs x)
                             (excess_kwargs t kwargs)))]|]|];
    try destruct (c_call (cl_callable cl) pargs kwargs);
    cbn [final_state out]; try (rewrite Hfront; eauto).
  all: rewrite <- (app_nil_r (out s ++ _)); rewrite Hfront; eauto.
Qed.

(** X12: when the signature declares a variadic-positional parameter and
    the positional arguments beyond one slot per positional-capable
    parameter can be rendered, the report has, right after the parameter
    lines, the heading of that parameter and a line with these arguments as
    a tuple, whether or not keywords filled some of the slots. *)
Theorem excess_positionals_reported c cl s stack pargs kwargs star_name texts :
  live c cl s ->
  well_formed c = true ->
  star_pargs_name cl = Some star_name ->
  mapM repr (skipn (length (positional_names c)) pargs) = Some texts ->
  exists head lines rest,
    printed (out (final_state (wrapper cl stack pargs kwargs s)))
      = printed (out s) ++ head ++ lines
          ++ [ " *" +:+ star_name +:+ ":";
               "     " +:+ match texts with
                           | [text] => "(" +:+ text +:+ ",)"
                           | _ => "(" +:+ String.concat ", " texts +:+ ")"
                           end ]
          ++ rest
    /\ length head = 3
    /\ length lines = length (named_names c).
Proof.
  intros Hlive Hwf Hname Htexts.
  rewrite (live_wrapper _ _ _ _ _ _ Hlive).
  set (t := scan (c_parameters c)).
  destruct (wrapper_result_positional t cl stack pargs kwargs s) as [rest Hrest].
  exists (printed (report_head cl stack)),
         (printed (report_named cl (arg_table t pargs kwargs))), rest.
  split; [|split; [reflexivity|]].
  - rewrite Hrest. do 3 f_equal.
    assert (Hsp : excess_pargs t pargs kwargs = skipn (length (positional_names c)) pargs).
    { unfold excess_pargs. subst t. now rewrite remaining_parg_names_all, scan_pargs. }
    rewrite Hsp. unfold star_pargs_section.
    now rewrite Hname, (str_tuple_mapM _ _ Htexts).
  - unfold report_named. rewrite printed_prints, length_map.
    rewrite <- (arg_table_keys c Hwf pargs kwargs). fold t.
    unfold dict_keys. now rewrite length_map.
Qed.

(** X14: a call of the wrapper ends in one of two ways: it raises
    [ValueError] without having called the callable, or it has called the
    callable exactly once, with the arguments it received, and ends as that
    call ended. *)
Theorem wrapper_calls_once_or_raises c cl s stack pargs kwargs :
  live c cl s ->
  let r := wrapper cl stack pargs kwargs s in
  (outcome_of r = Raises ValueError
   /\ invocations (out (final_state r)) = invocations (out s))
  \/ (outcome_of r = c_call c pargs kwargs
      /\ invocations (out (final_state r)) = invocations (out s) ++ [(pargs, kwargs)]).
Proof.
  intros Hlive r. subst r.
  rewrite (live_wrapper _ _ _ _ _ _ Hlive).
  apply live_tables in Hlive as (Hc & _ & _ & _ & _).
  set (t := scan (c_parameters c)).
  unfold wrapper_result, finish. rewrite Hc.
  destruct (snd (star_pargs_section cl (excess_pargs t pargs kwargs))).
  - destruct (star_kwargs_name cl) as [star_name|].
    + destruct (map py_len (dict_keys (excess_kwargs t kwargs))) as [|x xs].
      * left. cbn [outcome_of final_state out]. split; [reflexivity|].
        rewrite invocations_app, invocations_report_front. cbn. now rewrite app_nil_r.
      * destruct (snd (star_kwargs_section (fold_left Nat.max xs x)
                         (excess_kwargs t kwargs))).
        -- right. destruct (c_call c pargs kwargs); cbn [outcome_of final_state out];
             (split; [reflexivity|]);
             rewrite invocations_app, invocations_report_front,
               invocations_heading, invocations_app, invocations_star_kwargs_section;
             reflexivity.
        -- left. cbn [outcome_of final_state out]. split; [reflexivity|].
           rewrite invocations_app, invocations_report_front,
             invocations_heading, invocations_star_kwargs_section.
           now rewrite app_nil_r.
    + right. destruct (c_call c pargs kwargs); cbn [outcome_of final_state out];
        (split; [reflexivity|]);
        rewrite invocations_app, invocations_report_front; reflexivity.
  - left. cbn [outcome_of final_state out]. split; [reflexivity|].
    apply invocations_report_front.
Qed.

(** X15: when the signature declares a variadic-positional parameter and
    [repr] raises on one of the positional arguments left for it, the wrapper
    prints the report up to the heading of that parameter, raises
    [ValueError] and does not call the callable. *)
Theorem unrenderable_positional_stops_the_call c cl s stack pargs kwargs star_name :
  live c cl s ->
  star_pargs_name cl = Some star_name ->
  mapM repr (skipn (length (positional_names c)) pargs) = None ->
  let r := wrapper cl stack pargs kwargs s in
  outcome_of r = Raises ValueError
  /\ invocations (out (final_state r)) = invocations (out s)
  /\ exists lines,
       printed (out (final_state r))
         = printed (out s) ++ lines ++ [" *" +:+ star_name +:+ ":"].
Proof.
  intros Hlive Hname Hnone r. subst r.
  rewrite (live_wrapper _ _ _ _ _ _ Hlive).
  set (t := scan (c_parameters c)).
  assert (Hsp : star_pargs_section cl (excess_pargs t pargs kwargs)
                = ([Print (" *" +:+ star_name +:+ ":")], false)).
  { unfold excess_pargs. subst t. rewrite remaining_parg_names_all, scan_pargs.
    unfold star_pargs_section. now rewrite Hname, (str_tuple_None _ Hnone). }
  pose proof (invocations_report_front cl stack (arg_table t pargs kwargs)
                (excess_pargs t pargs kwargs) (out s)) as Hinv.
  unfold wrapper_result. rewrite Hsp in *. cbn [fst snd outcome_of final_state out] in *.
  split; [reflexivity|]. split; [exact Hinv|].
  exists (printed (report_head cl stack ++ report_named cl (arg_table t pargs kwargs))).
  rewrite !printed_app, <- !app_assoc. reflexivity.
Qed.

(** X16: when the signature declares a variadic-keyword parameter, the
    positional arguments can be rendered and [repr] raises on the value of a
    keyword argument whose name is not keyword-capable, the wrapper raises
    [ValueError] and does not call the callable. *)
Theorem unrenderable_keyword_stops_the_call c cl s stack pargs kwargs :
  live c cl s ->
  distinct (dict_keys kwargs) = true ->
  existsb is_var_keyword (c_parameters c) = true ->
  forallb repr_ok pargs = true ->
  existsb (fun item => negb (str_in (fst item) (keyword_names c))
                       && negb (repr_ok (snd item))) kwargs = true ->
  let r := wrapper cl stack pargs kwargs s in
  outcome_of r = Raises ValueError
  /\ invocations (out (final_state r)) = invocations (out s).
Proof.
  intros Hlive Hkeys Hvar Hpargs Hbad r. subst r.
  rewrite (live_wrapper _ _ _ _ _ _ Hlive).
  apply live_tables in Hlive as (_ & _ & Hsk & _ & _).
  destruct (scan_fold_star_kwargs (c_parameters c) (Tables [] [] [] (None, None)) Hvar)
    as [star_name Hname].
  fold (scan (c_parameters c)) in Hname. rewrite Hname in Hsk.
  set (t := scan (c_parameters c)).
  assert (Hextra : excess_kwargs t kwargs
                   = List.filter (fun item => negb (str_in (fst item) (keyword_names c)))
                                 kwargs).
  { unfold excess_kwargs, classify. subst t.
    rewrite classify_fold_extra_filter by exact Hkeys. now rewrite scan_kwargs. }
  assert (Hfail : forall pad, snd (star_kwargs_section pad (excess_kwargs t kwargs)) = false).
  { intros pad. apply star_kwargs_section_fails. rewrite Hextra.
    apply existsb_exists in Hbad as (item & Hin & Hitem).
    apply andb_true_iff in Hitem as [Hnot Hrepr].
    apply existsb_exists. exists item. split; [|exact Hrepr].
    apply filter_In. now split. }
  assert (Hne : excess_kwargs t kwargs <> []).
  { intros He. specialize (Hfail 0). rewrite He in Hfail. discriminate. }
  unfold wrapper_result. rewrite Hsk.
  rewrite star_pargs_section_ok by (unfold excess_pargs; now apply forallb_skipn).
  destruct (excess_kwargs t kwargs) as [|item extra] eqn:He; [contradiction|].
  cbn [dict_keys map]. rewrite Hfail. cbn [outcome_of final_state out].
  split; [reflexivity|].
  rewrite invocations_app, invocations_report_front,
    invocations_heading, invocations_star_kwargs_section.
  now rewrite app_nil_r.
Qed.

End Decorator.

(** * The properties on the sample inputs *)

Lemma get_caller_info_nearest_witness :
  skipn 2 sample_stack_skipped
    = [ Frame "/usr/lib/python3.11/contextlib.py" 81 "inner";
        Frame "main.py" 4 "<module>" ]
  /\ nearest_unskipped (_FRAMES_TO_SKIP sample_stdlib sample_site)
       [ Frame "/usr/lib/python3.11/contextlib.py" 81 "inner";
         Frame "main.py" 4 "<module>" ]
     = Some (Frame "main.py" 4 "<module>")
  /\ get_caller_info (_FRAMES_TO_SKIP sample_stdlib sample_site) sample_stack_skipped
     = ("main.py", 4%Z, "<module>", true).
Proof.
  split; [reflexivity|]. split; [reflexivity|].
  exact (proj1 (get_caller_info_nearest
                  (_FRAMES_TO_SKIP sample_stdlib sample_site) sample_stack_skipped
                  (Frame "/usr/lib/python3.11/contextlib.py" 81 "inner")
                  [Frame "main.py" 4 "<module>"]
                  (Frame "main.py" 4 "<module>")
                  eq_refl eq_refl)).
Defined.

Lemma get_caller_info_exhausted_witness :
  forallb (fun fr => frame_in fr (_FRAMES_TO_SKIP sample_stdlib sample_site))
          (skipn 2 [ Frame "debug_calls/decorators.py" 35 "get_caller_info";
                     Frame "debug_calls/decorators.py" 103 "wrapper";
                     Frame "/usr/lib/python3.11/contextlib.py" 81 "inner" ]) = true
  /\ get_caller_info (_FRAMES_TO_SKIP sample_stdlib sample_site)
       [ Frame "debug_calls/decorators.py" 35 "get_caller_info";
         Frame "debug_calls/decorators.py" 103 "wrapper";
         Frame "/usr/lib/python3.11/contextlib.py" 81 "inner" ]
     = (EmptyString, 0%Z, EmptyString, true).
Proof.
  split; [reflexivity|].
  apply get_caller_info_exhausted. reflexivity.
Defined.

(** The locator on a chain of length zero. *)
Example get_caller_info_empty_chain :
  get_caller_info (_FRAMES_TO_SKIP sample_stdlib sample_site)
    [ Frame "debug_calls/decorators.py" 35 "get_caller_info";
      Frame "debug_calls/decorators.py" 103 "wrapper" ]
  = (EmptyString, 0%Z, EmptyString, true).
Proof. reflexivity. Qed.

Lemma live_first :
  live sample_safe_repr sample_repr sample_stdlib sample_site f_first cl_first s_first.
Proof. apply live_decorated with (s0 := initial). reflexivity. Defined.

Lemma live_none :
  live sample_safe_repr sample_repr sample_stdlib sample_site f_none cl_none s_none.
Proof. apply live_decorated with (s0 := initial). reflexivity. Defined.

Lemma live_posonly :
  live sample_safe_repr sample_repr sample_stdlib sample_site f_posonly cl_posonly s_posonly.
Proof. apply live_decorated with (s0 := initial). reflexivity. Defined.

Lemma wrapper_raises_without_extra_keywords_witness :
  live sample_safe_repr sample_repr sample_stdlib sample_site f_first cl_first s_first
  /\ existsb is_var_keyword (c_parameters f_first) = true
  /\ forallb (fun item => str_in (fst item) (keyword_names f_first))
             [("a", PyInt 1)] = true
  /\ outcome_of (wrapper sample_safe_repr sample_repr sample_stdlib sample_site
                   cl_first sample_stack [] [("a", PyInt 1)] s_first)
     = Raises ValueError.
Proof.
  split; [exact live_first|]. split; [reflexivity|]. split; [reflexivity|].
  exact (proj1 (wrapper_raises_without_extra_keywords
                  sample_safe_repr sample_repr sample_stdlib sample_site
                  f_first cl_first s_first sample_stack [] [("a", PyInt 1)]
                  live_first eq_refl eq_refl)).
Defined.

Lemma report_categories_witness :
  live sample_safe_repr sample_repr sample_stdlib sample_site f_none cl_none s_none
  /\ well_formed f_none = true
  /\ valid_call f_none [PyInt 1; PyInt 2] [("c", PyInt 3)] = true
  /\ exists head lines rest,
       printed (out (final_state
         (wrapper sample_safe_repr sample_repr sample_stdlib sample_site
            cl_none sample_stack [PyInt 1; PyInt 2] [("c", PyInt 3)] s_none)))
         = printed (out s_none) ++ head ++ lines ++ rest
       /\ length head = 3
       /\ length lines = 4
       /\ nth_error lines 2 = Some "(k) c: 3".
Proof.
  split; [exact live_none|]. split; [reflexivity|]. split; [reflexivity|].
  destruct (report_categories sample_safe_repr sample_repr sample_stdlib sample_site
              f_none cl_none s_none sample_stack [PyInt 1; PyInt 2] [("c", PyInt 3)]
              live_none eq_refl eq_refl)
    as (head & lines & rest & Hout & Hhead & Hlen & Hline).
  exists head, lines, rest. repeat (split; [assumption|]).
  exact (proj1 (proj2 (Hline 2 (MkParameter "c" KEYWORD_ONLY PyEmpty) eq_refl))
           (PyInt 3) eq_refl).
Defined.

Lemma static_tables_never_mutated_witness :
  live sample_safe_repr sample_repr sample_stdlib sample_site f_none cl_none s_none
  /\ heap (final_state (wrapper sample_safe_repr sample_repr sample_stdlib sample_site
                          cl_none sample_stack [PyInt 1; PyInt 2] [("c", PyInt 3)] s_none))
       !! param_to_default cl_none
     = heap s_none !! param_to_default cl_none.
Proof.
  split; [exact live_none|].
  exact (proj1 (proj2 (proj2 (static_tables_never_mutated
           sample_safe_repr sample_repr sample_stdlib sample_site
           f_none cl_none s_none sample_stack [PyInt 1; PyInt 2] [("c", PyInt 3)]
           live_none)))).
Defined.


(** The report of that call as CPython renders it: the keyword is listed
    under the variadic-keyword heading. *)
Example positional_only_keyword_text :
  printed (out (final_state
    (wrapper sample_safe_repr sample_repr sample_stdlib sample_site
       cl_posonly sample_stack [PyInt 1] [("a", PyInt 2)] s_posonly)))
  = [ EmptyString;
      String (ascii_of_nat 27) ("[1m" +:+ String (ascii_of_nat 27) "[4m__main__.f"
        +:+ String (ascii_of_nat 27) "[0m");
      "Called by <module> at main.py:4 ";
      "(p) a: 1";
      " **kw:";
      "     a: 2" ].
Proof. reflexivity. Qed.

(** C1 fails on the code: [def f(a, **kw): return a] called as [f(1)]
    returns 1, while the wrapper around it raises [ValueError] at the
    variadic-keyword section of the report and never makes the call. *)
Theorem wrapper_not_transparent :
  c_call f_first [PyInt 1] [] = Returns (PyInt 1)
  /\ outcome_of (decorate_and_call sample_safe_repr sample_repr sample_stdlib sample_site
                   f_first sample_stack [PyInt 1] [])
     = Raises ValueError
  /\ invocations (out (final_state
       (decorate_and_call sample_safe_repr sample_repr sample_stdlib sample_site
          f_first sample_stack [PyInt 1] []))) = [].
Proof. repeat split. Qed.

(** C2 fails on the code: for [def f(a, b=0)] and the keyword argument
    [a=1], the list that positional arguments are paired against still holds
    [a], where leaving out the keys of the keyword arguments gives [b] alone;
    with a positional argument as well, [a] is reported with letter p. *)
Theorem remaining_parg_names_keeps_keyword_names :
  remaining_parg_names ["a"; "b"] [("a", PyInt 1)] = ["a"; "b"]
  /\ remaining_by_keys ["a"; "b"] [("a", PyInt 1)] = ["b"]
  /\ heap (final_state
       (decorate_and_call sample_safe_repr sample_repr sample_stdlib sample_site
          f_pair sample_stack [PyInt 7] [("a", PyInt 1)])) !! 3
     = Some (OTable [("a", (PyInt 7, "p")); ("b", (PyInt 0, "d"))]).
Proof. repeat split. Qed.

(** C3 fails on the code: decorating a callable that declares only a
    variadic-positional and a variadic-keyword parameter raises
    [ValueError] when the alignment width is computed. *)
Theorem debug_calls_fails_without_named_parameter :
  debug_calls f_variadic initial
    = Err ValueError (State [OTable []; ONames []; ONames []] []).
Proof. reflexivity. Qed.

(** The sample report as CPython renders it. *)
Example example_report_text :
  printed (out (final_state
    (decorate_and_call sample_safe_repr sample_repr sample_stdlib sample_site
       f_none sample_stack [PyInt 1; PyInt 2] [("c", PyInt 3)])))
  = [ EmptyString;
      String (ascii_of_nat 27) ("[1m" +:+ String (ascii_of_nat 27) "[4m__main__.f"
        +:+ String (ascii_of_nat 27) "[0m");
      "Called by <module> at main.py:4 ";
      "(p) a: 1"; "(p) b: 2"; "(k) c: 3"; "(d) d: 'x'" ].
Proof. reflexivity. Qed.

(** * The further properties on the sample inputs *)

Lemma live_pair :
  live sample_safe_repr sample_repr sample_stdlib sample_site f_pair cl_pair s_pair.
Proof. apply live_decorated with (s0 := initial). reflexivity. Defined.

Lemma get_caller_info_ignores_outer_frames_witness :
  nearest_unskipped (_FRAMES_TO_SKIP sample_stdlib sample_site)
    [ Frame "/usr/lib/python3.11/contextlib.py" 81 "inner";
      Frame "main.py" 4 "<module>" ]
  = Some (Frame "main.py" 4 "<module>")
  /\ get_caller_info (_FRAMES_TO_SKIP sample_stdlib sample_site)
       (Frame "debug_calls/decorators.py" 35 "get_caller_info"
        :: Frame "debug_calls/decorators.py" 103 "wrapper"
        :: [ Frame "/usr/lib/python3.11/contextlib.py" 81 "inner";
             Frame "main.py" 4 "<module>" ]
           ++ [ Frame "runner.py" 10 "run" ])
     = get_caller_info (_FRAMES_TO_SKIP sample_stdlib sample_site) sample_stack_skipped.
Proof.
  split; [reflexivity|].
  exact (get_caller_info_ignores_outer_frames
           (_FRAMES_TO_SKIP sample_stdlib sample_site)
           (Frame "debug_calls/decorators.py" 35 "get_caller_info")
           (Frame "debug_calls/decorators.py" 103 "wrapper")
           [ Frame "/usr/lib/python3.11/contextlib.py" 81 "inner";
             Frame "main.py" 4 "<module>" ]
           [ Frame "runner.py" 10 "run" ]
           (Frame "main.py" 4 "<module>") eq_refl).
Defined.

Lemma debug_calls_tables_witness :
  well_formed f_none = true
  /\ debug_calls f_none initial = Ok cl_none s_none
  /\ heap s_none
     = heap initial
         ++ [ OTable (map default_item (List.filter named (c_parameters f_none)));
              ONames (positional_names f_none);
              ONames (keyword_names f_none) ].
Proof.
  split; [reflexivity|]. split; [reflexivity|].
  exact (proj1 (debug_calls_tables f_none cl_none initial s_none eq_refl eq_refl)).
Defined.

Lemma live_long :
  live sample_safe_repr sample_repr sample_stdlib sample_site f_long cl_long s_long.
Proof. apply live_decorated with (s0 := initial). reflexivity. Defined.

Lemma live_rest :
  live sample_safe_repr sample_repr sample_stdlib sample_site f_rest cl_rest s_rest.
Proof. apply live_decorated with (s0 := initial). reflexivity. Defined.

Lemma pad_length_fits_witness :
  live sample_safe_repr sample_repr sample_stdlib sample_site f_long cl_long s_long
  /\ well_formed f_long = true
  /\ distinct (dict_keys [("señal", PyInt 5)]) = true
  /\ pad_length cl_long = list_max (map py_len (named_names f_long))
  /\ exists head lines rest,
       printed (out (final_state
         (wrapper sample_safe_repr sample_repr sample_stdlib sample_site
            cl_long sample_stack [PyInt 1] [("señal", PyInt 5)] s_long)))
         = printed (out s_long) ++ head ++ lines ++ rest
       /\ length head = 3
       /\ length lines = length (named_names f_long)
       /\ forall line, In line lines ->
            exists before v,
              line = before +:+ ": " +:+ sample_safe_repr v
              /\ py_len before = 4 + list_max (map py_len (named_names f_long)).
Proof.
  split; [exact live_long|]. split; [reflexivity|]. split; [reflexivity|].
  exact (pad_length_fits sample_safe_repr sample_repr sample_stdlib sample_site
           f_long cl_long s_long sample_stack [PyInt 1] [("señal", PyInt 5)]
           live_long eq_refl eq_refl).
Defined.

(** The two parameter lines of that report: the width is counted in
    characters and the colons are in one column. *)
Example pad_length_text :
  printed (out (final_state
    (wrapper sample_safe_repr sample_repr sample_stdlib sample_site
       cl_long sample_stack [PyInt 1] [("señal", PyInt 5)] s_long)))
  = [ EmptyString;
      String (ascii_of_nat 27) ("[1m" +:+ String (ascii_of_nat 27) "[4m__main__.f"
        +:+ String (ascii_of_nat 27) "[0m");
      "Called by <module> at main.py:4 ";
      "(p) x    : 1";
      "(k) señal: 5" ].
Proof. reflexivity. Qed.

Lemma debug_calls_star_names_witness :
  debug_calls f_first initial = Ok cl_first s_first
  /\ star_kwargs_name cl_first
     = last (map p_name (List.filter is_var_keyword (c_parameters f_first))).
Proof.
  split; [reflexivity|].
  exact (proj2 (debug_calls_star_names f_first cl_first initial s_first eq_refl)).
Defined.

Lemma wrapper_transparent_witness :
  live sample_safe_repr sample_repr sample_stdlib sample_site f_posonly cl_posonly s_posonly
  /\ renders sample_repr [PyInt 1] [("a", PyInt 2)] = true
  /\ (existsb is_var_keyword (c_parameters f_posonly) = false
      \/ existsb (fun item => negb (str_in (fst item) (keyword_names f_posonly)))
                 [("a", PyInt 2)] = true)
  /\ outcome_of (wrapper sample_safe_repr sample_repr sample_stdlib sample_site
                   cl_posonly sample_stack [PyInt 1] [("a", PyInt 2)] s_posonly)
     = c_call f_posonly [PyInt 1] [("a", PyInt 2)].
Proof.
  split; [exact live_posonly|]. split; [reflexivity|]. split; [right; reflexivity|].
  exact (proj1 (wrapper_transparent
                  sample_safe_repr sample_repr sample_stdlib sample_site
                  f_posonly cl_posonly s_posonly sample_stack [PyInt 1] [("a", PyInt 2)]
                  live_posonly eq_refl (or_intror eq_refl))).
Defined.

Lemma report_lists_every_named_parameter_witness :
  live sample_safe_repr sample_repr sample_stdlib sample_site f_pair cl_pair s_pair
  /\ well_formed f_pair = true
  /\ distinct (dict_keys [("a", PyInt 1)]) = true
  /\ exists head lines rest,
       printed (out (final_state
         (wrapper sample_safe_repr sample_repr sample_stdlib sample_site
            cl_pair sample_stack [PyInt 7] [("a", PyInt 1)] s_pair)))
         = printed (out s_pair) ++ head ++ lines ++ rest
       /\ length head = 3
       /\ length lines = length (named_names f_pair)
       /\ exists letter v,
            (letter = "p" \/ letter = "k" \/ letter = "d")
            /\ nth_error lines 1
               = Some ("(" +:+ letter +:+ ") " +:+ "b" +:+ ": " +:+ sample_safe_repr v).
Proof.
  split; [exact live_pair|]. split; [reflexivity|]. split; [reflexivity|].
  destruct (report_lists_every_named_parameter
              sample_safe_repr sample_repr sample_stdlib sample_site
              f_pair cl_pair s_pair sample_stack [PyInt 7] [("a", PyInt 1)]
              live_pair eq_refl eq_refl)
    as (head & lines & rest & Hout & Hhead & Hlen & Hline).
  exists head, lines, rest. repeat (split; [assumption|]).
  exact (Hline 1 (MkParameter "b" POSITIONAL_OR_KEYWORD (PyInt 0)) eq_refl).
Defined.

Lemma positional_argument_overrides_keyword_witness :
  live sample_safe_repr sample_repr sample_stdlib sample_site f_pair cl_pair s_pair
  /\ well_formed f_pair = true
  /\ distinct (dict_keys [("a", PyInt 1)]) = true
  /\ nth_error (List.filter named (c_parameters f_pair)) 0
     = Some (MkParameter "a" POSITIONAL_OR_KEYWORD PyEmpty)
  /\ supplied_by_position f_pair [PyInt 7] "a" = Some (PyInt 7)
  /\ exists head lines rest,
       printed (out (final_state
         (wrapper sample_safe_repr sample_repr sample_stdlib sample_site
            cl_pair sample_stack [PyInt 7] [("a", PyInt 1)] s_pair)))
         = printed (out s_pair) ++ head ++ lines ++ rest
       /\ length head = 3
       /\ nth_error lines 0 = Some "(p) a: 7".
Proof.
  split; [exact live_pair|]. split; [reflexivity|]. split; [reflexivity|].
  split; [reflexivity|]. split; [reflexivity|].
  exact (positional_argument_overrides_keyword
           sample_safe_repr sample_repr sample_stdlib sample_site
           f_pair cl_pair s_pair sample_stack [PyInt 7] [("a", PyInt 1)]
           0 (MkParameter "a" POSITIONAL_OR_KEYWORD PyEmpty) (PyInt 7)
           live_pair eq_refl eq_refl eq_refl eq_refl).
Defined.

Lemma excess_keywords_in_call_order_witness :
  live sample_safe_repr sample_repr sample_stdlib sample_site f_first cl_first s_first
  /\ distinct (dict_keys [("z", PyInt 1); ("a", PyInt 2); ("y", PyInt 3)]) = true
  /\ heap (final_state (wrapper sample_safe_repr sample_repr sample_stdlib sample_site
                          cl_first sample_stack []
                          [("z", PyInt 1); ("a", PyInt 2); ("y", PyInt 3)] s_first))
       !! S (length (heap s_first))
     = Some (OKwargs [("z", PyInt 1); ("y", PyInt 3)]).
Proof.
  split; [exact live_first|]. split; [reflexivity|].
  exact (excess_keywords_in_call_order
           sample_safe_repr sample_repr sample_stdlib sample_site
           f_first cl_first s_first sample_stack []
           [("z", PyInt 1); ("a", PyInt 2); ("y", PyInt 3)] live_first eq_refl).
Defined.

Lemma excess_positionals_reported_witness :
  live sample_safe_repr sample_repr sample_stdlib sample_site f_rest cl_rest s_rest
  /\ well_formed f_rest = true
  /\ star_pargs_name cl_rest = Some "rest"
  /\ mapM sample_repr (skipn (length (positional_names f_rest))
                             [PyInt 1; PyInt 2; PyInt 3]) = Some ["2"; "3"]
  /\ exists head lines rest,
       printed (out (final_state
         (wrapper sample_safe_repr sample_repr sample_stdlib sample_site
            cl_rest sample_stack [PyInt 1; PyInt 2; PyInt 3] [] s_rest)))
         = printed (out s_rest) ++ head ++ lines ++ [" *rest:"; "     (2, 3)"] ++ rest
       /\ length head = 3
       /\ length lines = length (named_names f_rest).
Proof.
  split; [exact live_rest|]. split; [reflexivity|]. split; [reflexivity|].
  split; [reflexivity|].
  exact (excess_positionals_reported
           sample_safe_repr sample_repr sample_stdlib sample_site
           f_rest cl_rest s_rest sample_stack [PyInt 1; PyInt 2; PyInt 3] []
           "rest" ["2"; "3"] live_rest eq_refl eq_refl eq_refl).
Defined.

Lemma wrapper_calls_once_or_raises_witness :
  live sample_safe_repr sample_repr sample_stdlib sample_site f_first cl_first s_first
  /\ ((outcome_of (wrapper sample_safe_repr sample_repr sample_stdlib sample_site
                     cl_first sample_stack [PyInt 1] [("z", PyInt 2)] s_first)
       = Raises ValueError
       /\ invocations (out (final_state
            (wrapper sample_safe_repr sample_repr sample_stdlib sample_site
               cl_first sample_stack [PyInt 1] [("z", PyInt 2)] s_first)))
          = invocations (out s_first))
      \/ (outcome_of (wrapper sample_safe_repr sample_repr sample_stdlib sample_site
                        cl_first sample_stack [PyInt 1] [("z", PyInt 2)] s_first)
          = c_call f_first [PyInt 1] [("z", PyInt 2)]
          /\ invocations (out (final_state
               (wrapper sample_safe_repr sample_repr sample_stdlib sample_site
                  cl_first sample_stack [PyInt 1] [("z", PyInt 2)] s_first)))
             = invocations (out s_first) ++ [([PyInt 1], [("z", PyInt 2)])])).
Proof.
  split; [exact live_first|].
  exact (wrapper_calls_once_or_raises
           sample_safe_repr sample_repr sample_stdlib sample_site
           f_first cl_first s_first sample_stack [PyInt 1] [("z", PyInt 2)] live_first).
Defined.

Lemma live_rest_640 :
  live sample_safe_repr sample_repr_640 sample_stdlib sample_site f_rest cl_rest s_rest.
Proof. apply live_decorated with (s0 := initial). reflexivity. Defined.

Lemma live_first_640 :
  live sample_safe_repr sample_repr_640 sample_stdlib sample_site f_first cl_first s_first.
Proof. apply live_decorated with (s0 := initial). reflexivity. Defined.

Lemma unrenderable_positional_stops_the_call_witness :
  live sample_safe_repr sample_repr_640 sample_stdlib sample_site f_rest cl_rest s_rest
  /\ star_pargs_name cl_rest = Some "rest"
  /\ mapM sample_repr_640 (skipn (length (positional_names f_rest))
                             [PyInt 1; PyInt (10 ^ 640)]) = None
  /\ outcome_of (wrapper sample_safe_repr sample_repr_640 sample_stdlib sample_site
                   cl_rest sample_stack [PyInt 1; PyInt (10 ^ 640)] [] s_rest)
     = Raises ValueError.
Proof.
  assert (H : mapM sample_repr_640 (skipn (length (positional_names f_rest))
                                      [PyInt 1; PyInt (10 ^ 640)]) = None)
    by (vm_compute; reflexivity).
  split; [exact live_rest_640|]. split; [reflexivity|]. split; [exact H|].
  exact (proj1 (unrenderable_positional_stops_the_call
                  sample_safe_repr sample_repr_640 sample_stdlib sample_site
                  f_rest cl_rest s_rest sample_stack [PyInt 1; PyInt (10 ^ 640)] []
                  "rest" live_rest_640 eq_refl H)).
Defined.

Lemma unrenderable_keyword_stops_the_call_witness :
  live sample_safe_repr sample_repr_640 sample_stdlib sample_site f_first cl_first s_first
  /\ distinct (dict_keys [("z", PyInt (10 ^ 640))]) = true
  /\ existsb is_var_keyword (c_parameters f_first) = true
  /\ forallb (repr_ok sample_repr_640) [PyInt 1] = true
  /\ existsb (fun item => negb (str_in (fst item) (keyword_names f_first))
                          && negb (repr_ok sample_repr_640 (snd item)))
             [("z", PyInt (10 ^ 640))] = true
  /\ outcome_of (wrapper sample_safe_repr sample_repr_640 sample_stdlib sample_site
                   cl_first sample_stack [PyInt 1] [("z", PyInt (10 ^ 640))] s_first)
     = Raises ValueError.
Proof.
  assert (H : existsb (fun item => negb (str_in (fst item) (keyword_names f_first))
                                   && negb (repr_ok sample_repr_640 (snd item)))
                      [("z", PyInt (10 ^ 640))] = true)
    by (vm_compute; reflexivity).
  split; [exact live_first_640|]. split; [reflexivity|]. split; [reflexivity|].
  split; [reflexivity|]. split; [exact H|].
  exact (proj1 (unrenderable_keyword_stops_the_call
                  sample_safe_repr sample_repr_640 sample_stdlib sample_site
                  f_first cl_first s_first sample_stack [PyInt 1]
                  [("z", PyInt (10 ^ 640))] live_first_640 eq_refl eq_refl eq_refl H)).
Defined.
